(** * The llama JNI bridge (llama_jni.cpp): session state, model lifecycle
      and generation loop, in the real build and in the LLAMA_STUB build. *)

From Stdlib Require Import ZArith String Ascii Bool Lia.
From stdpp Require Import base list strings.

Local Open Scope Z_scope.

(** ** C++ evaluation outcomes

    An operation of the bridge either runs to its return statement or
    performs an out-of-bounds array write, which C++ leaves undefined. *)

Inductive outcome (A : Type) : Type :=
| Done (a : A)
| OutOfBounds.
Arguments Done {A} a.
Arguments OutOfBounds {A}.

Definition obind {A B : Type} (o : outcome A) (k : A -> outcome B) : outcome B :=
  match o with
  | Done a => k a
  | OutOfBounds => OutOfBounds
  end.

Notation "x <~ e ; k" := (obind e (fun x => k))
  (at level 100, e at next level, right associativity,
   format "x  <~  e ; '/' k").

(** [arr[i] = x] on an array of [length arr] slots. *)
Definition store {A : Type} (arr : list A) (i : Z) (x : A) : outcome (list A) :=
  if (0 <=? i) && (i <? Z.of_nat (length arr))
  then Done (<[Z.to_nat i := x]> arr)
  else OutOfBounds.

(** [arr[i]] read for a later write through it. *)
Definition fetch {A : Type} (arr : list A) (i : Z) : outcome A :=
  if 0 <=? i then
    match arr !! Z.to_nat i with
    | Some x => Done x
    | None => OutOfBounds
    end
  else OutOfBounds.

(** ** C strings

    A [std::string] is a [string] (a sequence of 8-bit chars).  Seen through
    a [const char*] it ends at its first NUL. *)

Definition NUL : ascii := Ascii.zero.

Fixpoint c_str (s : string) : string :=
  match s with
  | EmptyString => EmptyString
  | String c s' => if Ascii.eqb c NUL then EmptyString else String c (c_str s')
  end.

Fixpoint nul_free (s : string) : bool :=
  match s with
  | EmptyString => true
  | String c s' => negb (Ascii.eqb c NUL) && nul_free s'
  end.

(** The chars that [GetStringUTFChars] hands out: modified UTF-8, NUL
    terminated, with no NUL before the terminator. *)
Record cstring : Type := CString {
  chars : string;
  chars_nul_free : nul_free chars = true
}.

(** [strlen] *)
Definition strlen (s : cstring) : Z := Z.of_nat (String.length (chars s)).

(** [std::string::substr(pos, count)] for [pos <= size()]. *)
Definition substr (s : string) (pos count : nat) : string := substring pos count s.

(** [std::string::append(buf, n)]: the first [n] chars of [buf]. *)
Definition append_n (result buf : string) (n : Z) : string :=
  result +:+ substring 0 (Z.to_nat n) buf.

(** [jfloat]: an IEEE-754 binary32 value, kept as its bit pattern; the
    bridge passes it around and never computes with it. *)
Inductive jfloat : Type := JFloat (bits : Z).

(** ** The inference library (llama.h, common.h) *)

Definition llama_token : Type := Z.
Definition llama_pos : Type := Z.
Definition llama_seq_id : Type := Z.

(** [struct llama_model_params] and [struct llama_context_params]: the
    fields the bridge assigns, and the remaining fields, which keep the
    library's defaults. *)
Record llama_model_params (O : Type) : Type := {
  n_gpu_layers : Z;
  model_other : O
}.
Arguments n_gpu_layers {O} _.
Arguments model_other {O} _.

Record llama_context_params (O : Type) : Type := {
  n_ctx : Z;
  n_threads : Z;
  n_threads_batch : Z;
  ctx_other : O
}.
Arguments n_ctx {O} _.
Arguments n_threads {O} _.
Arguments n_threads_batch {O} _.
Arguments ctx_other {O} _.

(** [struct llama_batch]: [n_tokens] entries in use, in arrays whose
    length is the capacity given at [llama_batch_init]. *)
Record llama_batch : Type := {
  n_tokens : Z;
  token : list llama_token;
  pos : list llama_pos;
  n_seq_id : list Z;
  seq_id : list (list llama_seq_id);
  logits : list bool
}.

(** Modelled from the spec: the batch helpers of the inference library
    (llama_batch_init of llama.h, llama_batch_add and llama_batch_clear of
    common.h), absent from src/.  The spec has a batch as "a set of (token,
    position, sequence-id, wants-logits) tuples submitted to the decoder in
    one call"; the library allocates room for [n_tokens_alloc] tuples of up
    to [n_seq_max] sequence ids each, adds a tuple at index [n_tokens], and
    clears by resetting [n_tokens]. *)
Definition llama_batch_init (n_tokens_alloc embd n_seq_max : Z) : llama_batch :=
  let cap := Z.to_nat n_tokens_alloc in
  {| n_tokens := 0;
     token := replicate cap 0;
     pos := replicate cap 0;
     n_seq_id := replicate cap 0;
     seq_id := replicate cap (replicate (Z.to_nat n_seq_max) 0);
     logits := replicate cap false |}.

Fixpoint store_seq_ids (row : list llama_seq_id) (i : Z) (seq_ids : list llama_seq_id)
  : outcome (list llama_seq_id) :=
  match seq_ids with
  | [] => Done row
  | s :: rest => row' <~ store row i s; store_seq_ids row' (i + 1) rest
  end.

Definition llama_batch_add (batch : llama_batch) (id : llama_token) (p : llama_pos)
    (seq_ids : list llama_seq_id) (lg : bool) : outcome llama_batch :=
  let n := n_tokens batch in
  token' <~ store (token batch) n id;
  pos' <~ store (pos batch) n p;
  n_seq_id' <~ store (n_seq_id batch) n (Z.of_nat (length seq_ids));
  row <~ fetch (seq_id batch) n;
  row' <~ store_seq_ids row 0 seq_ids;
  seq_id' <~ store (seq_id batch) n row';
  logits' <~ store (logits batch) n lg;
  Done {| n_tokens := n + 1; token := token'; pos := pos';
          n_seq_id := n_seq_id'; seq_id := seq_id'; logits := logits' |}.

Definition llama_batch_clear (batch : llama_batch) : llama_batch :=
  {| n_tokens := 0; token := token batch; pos := pos batch;
     n_seq_id := n_seq_id batch; seq_id := seq_id batch;
     logits := logits batch |}.

(** The tuples a batch submits: entries [0 .. n_tokens-1] of its arrays. *)
Definition batch_entry (batch : llama_batch) (i : nat)
  : option (llama_token * llama_pos * list llama_seq_id * bool) :=
  t ← token batch !! i;
  p ← pos batch !! i;
  k ← n_seq_id batch !! i;
  row ← seq_id batch !! i;
  l ← logits batch !! i;
  Some (t, p, take (Z.to_nat k) row, l).

(** A batch allocated for [cap] tuples of one sequence id each. *)
Definition batch_shape (cap : nat) (batch : llama_batch) : Prop :=
  length (token batch) = cap /\ length (pos batch) = cap /\
  length (n_seq_id batch) = cap /\ length (seq_id batch) = cap /\
  length (logits batch) = cap /\
  Forall (fun row => length row = 1%nat) (seq_id batch).

(** The rest of the library is outside the repository: its calls are the
    operations of this interface.  [world] is everything they read and
    write besides their arguments (files, heap, the KV cache and logits
    of a context). *)
Class Llama : Type := {
  world : Type;
  llama_model : Type;
  llama_context : Type;
  llama_logits : Type;
  llama_backend_init : world -> world;
  llama_backend_free : world -> world;
  model_defaults : Type;
  ctx_defaults : Type;
  llama_model_default_params : llama_model_params model_defaults;
  llama_context_default_params : llama_context_params ctx_defaults;
  llama_load_model_from_file :
    string -> llama_model_params model_defaults -> world
    -> option llama_model * world;
  llama_new_context_with_model :
    llama_model -> llama_context_params ctx_defaults -> world
    -> option llama_context * world;
  llama_free : llama_context -> world -> world;
  llama_free_model : llama_model -> world -> world;
  (** text, text_len, the token buffer, n_max_tokens, add_bos, special:
      the count returned and the buffer afterwards *)
  llama_tokenize :
    llama_model -> string -> Z -> list llama_token -> Z -> bool -> bool
    -> Z * list llama_token;
  llama_kv_cache_clear : llama_context -> world -> world;
  llama_decode : llama_context -> llama_batch -> world -> Z * world;
  llama_get_logits_ith : llama_context -> Z -> world -> llama_logits;
  llama_sample_token_greedy : llama_context -> llama_logits -> world -> llama_token;
  llama_token_is_eog : llama_model -> llama_token -> bool;
  (** the vocabulary's printable piece of a token *)
  token_piece : llama_model -> llama_token -> bool -> string
}.

(** Modelled from the spec: llama_token_to_piece of the inference library
    (llama.h), absent from src/.  The spec has it "convert the token to its
    printable piece (raw bytes, no special-token rendering)"; the library
    writes the piece into the caller's buffer of [length] chars and returns
    its size when it fits, and returns the negated size, the buffer unusable,
    when it does not. *)
Definition llama_token_to_piece `{Llama} (model : llama_model) (tok : llama_token)
    (length : Z) (special : bool) : Z * string :=
  let piece := token_piece model tok special in
  let n := Z.of_nat (String.length piece) in
  if n <=? length then (n, piece) else (- n, EmptyString).

(** ** The real build (LLAMA_STUB not defined) *)

Module Real.
Section Bridge.
Context `{Llama}.

(** The file-scope variables [g_model], [g_ctx], [g_model_loaded] and
    [g_cancel_generation]; [None] is [nullptr]. *)
Record State : Type := {
  g_model : option llama_model;
  g_ctx : option llama_context;
  g_model_loaded : bool;
  g_cancel_generation : bool
}.

Definition set_model (m : option llama_model) (st : State) : State :=
  {| g_model := m; g_ctx := g_ctx st;
     g_model_loaded := g_model_loaded st;
     g_cancel_generation := g_cancel_generation st |}.

Definition set_ctx (c : option llama_context) (st : State) : State :=
  {| g_model := g_model st; g_ctx := c;
     g_model_loaded := g_model_loaded st;
     g_cancel_generation := g_cancel_generation st |}.

Definition set_model_loaded (b : bool) (st : State) : State :=
  {| g_model := g_model st; g_ctx := g_ctx st;
     g_model_loaded := b;
     g_cancel_generation := g_cancel_generation st |}.

Definition set_cancel_generation (b : bool) (st : State) : State :=
  {| g_model := g_model st; g_ctx := g_ctx st;
     g_model_loaded := g_model_loaded st;
     g_cancel_generation := b |}.

(** The state of a fresh process. *)
Definition fresh : State :=
  {| g_model := None; g_ctx := None;
     g_model_loaded := false; g_cancel_generation := false |}.

Definition nativeInit (st : State) (w : world) : bool * State * world :=
  (true, st, llama_backend_init w).

(** [if (g_ctx != nullptr) { llama_free(g_ctx); g_ctx = nullptr; }] *)
Definition release_ctx (st : State) (w : world) : State * world :=
  match g_ctx st with
  | Some c => (set_ctx None st, llama_free c w)
  | None => (st, w)
  end.

(** [if (g_model != nullptr) { llama_free_model(g_model); g_model = nullptr; }] *)
Definition release_model (st : State) (w : world) : State * world :=
  match g_model st with
  | Some m => (set_model None st, llama_free_model m w)
  | None => (st, w)
  end.

(** [llama_model_default_params()] with [n_gpu_layers = 0]. *)
Definition model_params : llama_model_params model_defaults :=
  {| n_gpu_layers := 0;
     model_other := model_other llama_model_default_params |}.

(** [llama_context_default_params()] with the three assignments of
    [nativeLoadModel]. *)
Definition ctx_params (nCtx nThreads : Z) : llama_context_params ctx_defaults :=
  {| n_ctx := if nCtx >? 0 then nCtx else 2048;
     n_threads := if nThreads >? 0 then nThreads else 4;
     n_threads_batch := if nThreads >? 0 then nThreads else 4;
     ctx_other := ctx_other llama_context_default_params |}.

Definition nativeLoadModel (path : string) (nCtx nThreads : Z)
    (st : State) (w : world) : bool * State * world :=
  let '(st, w) := release_ctx st w in
  let '(st, w) := release_model st w in
  let '(m, w) := llama_load_model_from_file path model_params w in
  let st := set_model m st in
  match m with
  | None => (false, st, w)
  | Some model =>
      let '(c, w) := llama_new_context_with_model model (ctx_params nCtx nThreads) w in
      let st := set_ctx c st in
      match c with
      | None => (false, set_model None st, llama_free_model model w)
      | Some _ => (true, set_model_loaded true st, w)
      end
  end.

Definition nativeCancelGeneration (st : State) : State :=
  set_cancel_generation true st.

Definition nativeUnloadModel (st : State) (w : world) : State * world :=
  let '(st, w) := release_ctx st w in
  let '(st, w) := release_model st w in
  (set_model_loaded false st, w).

Definition nativeIsModelLoaded (st : State) : bool := g_model_loaded st.

Definition nativeFree (st : State) (w : world) : State * world :=
  let '(st, w) := nativeUnloadModel st w in
  (st, llama_backend_free w).

(** *** nativeGenerate *)

(** Which return statement of [nativeGenerate] was taken.  [Generated]
    carries [n_gen] as logged on the way out and, as ghost data, the
    sampled tokens that went through piece conversion, in order. *)
Inductive gen_exit : Type :=
| NotLoaded
| NotInitialized
| TokenizationFailed
| DecodingFailed
| Generated (n_gen : Z) (sampled : list llama_token).

(** [tokens.resize(n)] *)
Definition resize (tokens : list llama_token) (n : Z) : list llama_token :=
  take (Z.to_nat n) tokens ++ replicate (Z.to_nat n - length tokens)%nat 0.

(** [for (int i = ...; i < n_tokens; i++) llama_batch_add(batch, tokens[i], i, { 0 }, false);]
    over [tokens[i..]]. *)
Fixpoint add_prompt (tokens : list llama_token) (i : Z) (batch : llama_batch)
  : outcome llama_batch :=
  match tokens with
  | [] => Done batch
  | t :: rest =>
      batch' <~ llama_batch_add batch t i [0] false;
      add_prompt rest (i + 1) batch'
  end.

Definition set_logits (lg : list bool) (batch : llama_batch) : llama_batch :=
  {| n_tokens := n_tokens batch; token := token batch; pos := pos batch;
     n_seq_id := n_seq_id batch; seq_id := seq_id batch; logits := lg |}.

(** Lines 182-186: the batch submitted for the prompt. *)
Definition prefill_batch (tokens : list llama_token) : outcome llama_batch :=
  batch <~ add_prompt tokens 0 (llama_batch_init 512 0 1);
  lg <~ store (logits batch) (n_tokens batch - 1) true;
  Done (set_logits lg batch).

(** The locals of the decode loop, the library's world, the cancel flag,
    and the ghost list of sampled tokens. *)
Record loop_state : Type := {
  l_result : string;
  l_batch : llama_batch;
  l_n_cur : Z;
  l_n_gen : Z;
  l_world : world;
  l_cancel : bool;
  l_sampled : list llama_token
}.

(** The decode loop, lines 199-227.  [g_cancel_generation] is atomic and
    another thread may run [nativeCancelGeneration] at any time:
    [cancel_req k] tells whether one did before the [k]-th evaluation of
    the loop condition (counted from 0, after the reset at line 157).
    [fuel] bounds the evaluations of the loop condition. *)
Fixpoint decode_loop (model : llama_model) (ctx : llama_context) (maxTokens : Z)
    (cancel_req : nat -> bool) (fuel : nat) (k : nat) (ls : loop_state)
  : outcome loop_state :=
  match fuel with
  | O => Done ls
  | S fuel' =>
      let cancel := l_cancel ls || cancel_req k in
      let w := l_world ls in
      if (l_n_gen ls <? maxTokens) && negb cancel then
        let new_token :=
          llama_sample_token_greedy ctx
            (llama_get_logits_ith ctx (n_tokens (l_batch ls) - 1) w) w in
        if llama_token_is_eog model new_token then
          Done {| l_result := l_result ls; l_batch := l_batch ls;
                  l_n_cur := l_n_cur ls; l_n_gen := l_n_gen ls;
                  l_world := w; l_cancel := cancel;
                  l_sampled := l_sampled ls |}
        else
          let '(n, buf) := llama_token_to_piece model new_token 128 false in
          let result := if n >? 0 then append_n (l_result ls) buf n
                        else l_result ls in
          let sampled := l_sampled ls ++ [new_token] in
          batch <~ llama_batch_add (llama_batch_clear (l_batch ls))
                     new_token (l_n_cur ls) [0] true;
          let '(rc, w) := llama_decode ctx batch w in
          if negb (rc =? 0) then
            Done {| l_result := result; l_batch := batch;
                    l_n_cur := l_n_cur ls; l_n_gen := l_n_gen ls;
                    l_world := w; l_cancel := cancel;
                    l_sampled := sampled |}
          else
            decode_loop model ctx maxTokens cancel_req fuel' (S k)
              {| l_result := result; l_batch := batch;
                 l_n_cur := l_n_cur ls + 1; l_n_gen := l_n_gen ls + 1;
                 l_world := w; l_cancel := cancel;
                 l_sampled := sampled |}
      else
        Done {| l_result := l_result ls; l_batch := l_batch ls;
                l_n_cur := l_n_cur ls; l_n_gen := l_n_gen ls;
                l_world := w; l_cancel := cancel;
                l_sampled := l_sampled ls |}
  end.

(** Evaluations of the loop condition that [maxTokens] allows: one per
    generated token and the last, failing one. *)
Definition loop_fuel (maxTokens : Z) : nat := S (Z.to_nat maxTokens).

(** [nativeGenerate]: the chars handed to [NewStringUTF], the return
    statement taken, the globals and the library's world afterwards. *)
Definition nativeGenerate (prompt : cstring) (maxTokens : Z) (temperature : jfloat)
    (cancel_req : nat -> bool) (st : State) (w : world)
  : outcome (string * gen_exit * State * world) :=
  if negb (g_model_loaded st) then
    Done ("[Error: Model not loaded]"%string, NotLoaded, st, w)
  else
    let prompt_cstr := chars prompt in
    let st := set_cancel_generation false st in
    match g_ctx st, g_model st with
    | Some ctx, Some model =>
        let '(n_tokens_, tokens) :=
          llama_tokenize model prompt_cstr (strlen prompt)
            (replicate (Z.to_nat (strlen prompt + 1)) 0)
            (strlen prompt + 1) true false in
        if n_tokens_ <? 0 then
          Done ("[Error: Tokenization failed]"%string, TokenizationFailed, st, w)
        else
          let tokens := resize tokens n_tokens_ in
          let w := llama_kv_cache_clear ctx w in
          batch <~ prefill_batch tokens;
          let '(rc, w) := llama_decode ctx batch w in
          if negb (rc =? 0) then
            Done ("[Error: Decoding failed]"%string, DecodingFailed, st, w)
          else
            ls <~ decode_loop model ctx maxTokens cancel_req (loop_fuel maxTokens) 0
                    {| l_result := EmptyString; l_batch := batch;
                       l_n_cur := n_tokens batch; l_n_gen := 0;
                       l_world := w; l_cancel := g_cancel_generation st;
                       l_sampled := [] |};
            Done (c_str (l_result ls), Generated (l_n_gen ls) (l_sampled ls),
                  set_cancel_generation (l_cancel ls) st, l_world ls)
    | _, _ =>
        Done ("[Error: Context not initialized]"%string, NotInitialized, st, w)
    end.

(** *** What a run of the loop leaves in the output *)

(** The claim's reading: every sampled token contributes its piece. *)
Definition pieces_text (model : llama_model) (toks : list llama_token) : string :=
  foldl (fun r tok => r +:+ token_piece model tok false) EmptyString toks.

(** A piece as far as it fits the 128-char conversion buffer of the loop. *)
Definition fitting_piece (model : llama_model) (tok : llama_token) : string :=
  let piece := token_piece model tok false in
  if (String.length piece <=? 128)%nat then piece else EmptyString.

Definition fitting_text (model : llama_model) (toks : list llama_token) : string :=
  foldl (fun r tok => r +:+ fitting_piece model tok) EmptyString toks.

(** The first cancel request from another thread arrives right before
    the [k]-th evaluation of the loop condition. *)
Definition first_request (cancel_req : nat -> bool) (k : nat) : Prop :=
  cancel_req k = true /\ forall i, (i < k)%nat -> cancel_req i = false.

Definition no_request : nat -> bool := fun _ => false.

(** What the host and the library see of a [nativeGenerate] call: the
    returned chars, the return statement taken and the world. *)
Definition observed (r : outcome (string * gen_exit * State * world))
  : outcome (string * gen_exit * world) :=
  r' <~ r; let '(s, e, _, w) := r' in Done (s, e, w).

End Bridge.
End Real.

(** *** Call sequences of the real build *)

Module RealCalls.
Section Calls.
Context `{Llama}.

Inductive call : Type :=
| Init
| LoadModel (path : string) (nCtx nThreads : Z)
| Generate (prompt : cstring) (maxTokens : Z) (temperature : jfloat)
    (cancel_req : nat -> bool)
| CancelGeneration
| UnloadModel
| IsModelLoaded
| Free.

Definition step (c : call) (st : Real.State) (w : world)
  : outcome (Real.State * world) :=
  match c with
  | Init => let '(_, st, w) := Real.nativeInit st w in Done (st, w)
  | LoadModel path nCtx nThreads =>
      let '(_, st, w) := Real.nativeLoadModel path nCtx nThreads st w in
      Done (st, w)
  | Generate prompt maxTokens temperature cancel_req =>
      r <~ Real.nativeGenerate prompt maxTokens temperature cancel_req st w;
      let '(_, _, st, w) := r in Done (st, w)
  | CancelGeneration => Done (Real.nativeCancelGeneration st, w)
  | UnloadModel => Done (Real.nativeUnloadModel st w)
  | IsModelLoaded => Done (st, w)
  | Free => Done (Real.nativeFree st w)
  end.

Fixpoint run (cs : list call) (st : Real.State) (w : world)
  : outcome (Real.State * world) :=
  match cs with
  | [] => Done (st, w)
  | c :: rest => r <~ step c st w; run rest (fst r) (snd r)
  end.

(** I2 of the data model. *)
Definition loaded_iff_handles (st : Real.State) : Prop :=
  Real.g_model_loaded st = true <->
  (is_Some (Real.g_model st) /\ is_Some (Real.g_ctx st)).

(** The part of I2 that every call keeps: the handles come and go
    together, and when they are present [g_model_loaded] is set. *)
Definition handles_consistent (st : Real.State) : Prop :=
  (is_Some (Real.g_model st) <-> is_Some (Real.g_ctx st)) /\
  (is_Some (Real.g_model st) -> Real.g_model_loaded st = true).

End Calls.
End RealCalls.

(** ** The stub build (LLAMA_STUB defined) *)

Module Stub.

(** The file-scope variables of the stub: [g_model_loaded] and
    [g_cancel_generation]; there are no handles. *)
Record State : Type := {
  g_model_loaded : bool;
  g_cancel_generation : bool
}.

Definition fresh : State :=
  {| g_model_loaded := false; g_cancel_generation := false |}.

Definition nativeInit (st : State) : bool * State := (true, st).

Definition nativeLoadModel (path : string) (nCtx nThreads : Z) (st : State)
  : bool * State :=
  (true, {| g_model_loaded := true;
            g_cancel_generation := g_cancel_generation st |}).

(** The string built at lines 233-235. *)
Definition stub_response (prompt_cstr : string) : string :=
  let result := "[Stub Response] Model not compiled. Your prompt was: "%string in
  let result := result +:+ substr prompt_cstr 0 50 in
  result +:+ "...".

Definition nativeGenerate (prompt : cstring) (maxTokens : Z) (temperature : jfloat)
    (st : State) : string * State :=
  if negb (g_model_loaded st) then
    ("[Error: Model not loaded]"%string, st)
  else
    let prompt_cstr := chars prompt in
    let st := {| g_model_loaded := g_model_loaded st;
                 g_cancel_generation := false |} in
    (c_str (stub_response prompt_cstr), st).

(** The assignment of [nativeCancelGeneration] is compiled out. *)
Definition nativeCancelGeneration (st : State) : State := st.

Definition nativeUnloadModel (st : State) : State :=
  {| g_model_loaded := false;
     g_cancel_generation := g_cancel_generation st |}.

Definition nativeIsModelLoaded (st : State) : bool := g_model_loaded st.

(** The unload of [nativeFree] is compiled out. *)
Definition nativeFree (st : State) : State := st.

Inductive call : Type :=
| Init
| LoadModel (path : string) (nCtx nThreads : Z)
| Generate (prompt : cstring) (maxTokens : Z) (temperature : jfloat)
| CancelGeneration
| UnloadModel
| IsModelLoaded
| Free.

Definition step (c : call) (st : State) : State :=
  match c with
  | Init => snd (nativeInit st)
  | LoadModel path nCtx nThreads => snd (nativeLoadModel path nCtx nThreads st)
  | Generate prompt maxTokens temperature =>
      snd (nativeGenerate prompt maxTokens temperature st)
  | CancelGeneration => nativeCancelGeneration st
  | UnloadModel => nativeUnloadModel st
  | IsModelLoaded => st
  | Free => nativeFree st
  end.

Definition run (cs : list call) (st : State) : State :=
  foldl (fun st c => step c st) st cs.

Definition is_load (c : call) : bool :=
  match c with
  | LoadModel _ _ _ => true
  | _ => false
  end.

End Stub.

(** ** A small deterministic library, for concrete runs

    One model file exists; a context holds at most 8192 tokens; the
    tokenizer emits the beginning-of-sequence token 1 and one token per
    char; the sampler replays [script]; token 2 ends generation; token
    300 has a piece of 129 chars. *)

Module Fixture.

Definition model_file : string := "/models/tiny.gguf".

Definition script : list llama_token := [104; 105; 300; 33; 2].

Fixpoint xs (n : nat) : string :=
  match n with
  | O => EmptyString
  | S n' => String "x"%char (xs n')
  end.

Definition piece (tok : llama_token) : string :=
  if tok =? 300 then xs 129
  else if (0 <? tok) && (tok <? 256) then String (ascii_of_nat (Z.to_nat tok)) EmptyString
  else EmptyString.

Fixpoint char_tokens (s : string) : list llama_token :=
  match s with
  | EmptyString => []
  | String c s' => Z.of_nat (nat_of_ascii c) :: char_tokens s'
  end.

Definition tokenize (text : string) (buf : list llama_token) (n_max : Z)
    (add_bos : bool) : Z * list llama_token :=
  let toks := (if add_bos then [1] else []) ++ char_tokens text in
  let n := Z.of_nat (length toks) in
  if n <=? n_max then (n, toks ++ drop (length toks) buf) else (- n, buf).

#[export] Instance lib : Llama := {|
  world := nat;
  llama_model := string;
  llama_context := Z;
  llama_logits := nat;
  llama_backend_init := fun w => w;
  llama_backend_free := fun w => w;
  model_defaults := unit;
  ctx_defaults := unit;
  llama_model_default_params := {| n_gpu_layers := 99; model_other := tt |};
  llama_context_default_params :=
    {| n_ctx := 512; n_threads := 1; n_threads_batch := 1; ctx_other := tt |};
  llama_load_model_from_file := fun path _ w =>
    (if String.eqb path model_file then Some path else None, w);
  llama_new_context_with_model := fun _ p w =>
    (if n_ctx p <=? 8192 then Some (n_ctx p) else None, w);
  llama_free := fun _ w => w;
  llama_free_model := fun _ w => w;
  llama_tokenize := fun _ text _ buf n_max add_bos _ => tokenize text buf n_max add_bos;
  llama_kv_cache_clear := fun _ _ => O;
  llama_decode := fun ctx batch w =>
    (if n_tokens batch + Z.of_nat w <=? ctx then 0 else 1, S w);
  llama_get_logits_ith := fun _ _ w => w;
  llama_sample_token_greedy := fun _ lg _ => nth (lg - 1) script 2;
  llama_token_is_eog := fun _ tok => tok =? 2;
  token_piece := fun _ tok _ => piece tok
|}.

Definition yo : cstring := CString "yo" eq_refl.

(** A prompt of 512 chars: 513 tokens with the beginning-of-sequence token. *)
Definition long_prompt : cstring := CString (xs 512) eq_refl.

(** A cancel request seen at the [k]-th evaluation of the loop condition. *)
Definition cancel_at (k : nat) : nat -> bool := fun i => Nat.eqb i k.

(** The state and world after [nativeLoadModel] of the model file. *)
Definition loaded : Real.State * nat :=
  let '(_, st, w) := Real.nativeLoadModel model_file 0 0 Real.fresh O in (st, w).

(** The locals on entry to the decode loop for the prompt "yo", whose
    three tokens have been decoded. *)
Definition loop_entry : Real.loop_state :=
  {| Real.l_result := EmptyString;
     Real.l_batch :=
       match Real.prefill_batch [1; 121; 111] with
       | Done batch => batch
       | OutOfBounds => llama_batch_init 512 0 1
       end;
     Real.l_n_cur := 3; Real.l_n_gen := 0;
     Real.l_world := 1%nat; Real.l_cancel := false;
     Real.l_sampled := [] |}.

(** The locals on exit from the loop entered at [loop_entry] with a
    budget of 10 tokens and no cancel request. *)
Definition loop_exit : Real.loop_state :=
  {| Real.l_result := "hi!";
     Real.l_batch :=
       match llama_batch_add (llama_batch_clear (Real.l_batch loop_entry))
               33 6 [0] true with
       | Done batch => batch
       | OutOfBounds => llama_batch_init 512 0 1
       end;
     Real.l_n_cur := 7; Real.l_n_gen := 4;
     Real.l_world := 5%nat; Real.l_cancel := false;
     Real.l_sampled := [104; 105; 300; 33] |}.

End Fixture.

(** ** nativeGetModelInfo *)

(** A 32-bit value read as an [int] (two's complement). *)
Definition to_int32 (z : Z) : Z := (z + 2 ^ 31) mod 2 ^ 32 - 2 ^ 31.

Definition digit_char (d : Z) : ascii := ascii_of_nat (48 + Z.to_nat d).

(** The decimal digits of [n >= 0], most significant first, in front of
    [acc]; [fuel] bounds their number. *)
Fixpoint uint_digits (fuel : nat) (n : Z) (acc : string) : string :=
  match fuel with
  | O => acc
  | S fuel' =>
      let acc' := String (digit_char (n mod 10)) acc in
      if n <? 10 then acc' else uint_digits fuel' (n / 10) acc'
  end.

(** The conversion [%d] of an [int], which has at most 10 digits. *)
Definition format_d (n : Z) : string :=
  if n <? 0 then String "-"%char (uint_digits 10 (- n) EmptyString)
  else uint_digits 10 n EmptyString.

(** The number a decimal numeral denotes, read after the value [v]. *)
Fixpoint value_from (v : Z) (s : string) : Z :=
  match s with
  | EmptyString => v
  | String c s' => value_from (v * 10 + (Z.of_nat (nat_of_ascii c) - 48)) s'
  end.

Definition parse_d (s : string) : Z :=
  match s with
  | String c s' =>
      if Ascii.eqb c "-"%char then - value_from 0 s' else value_from 0 s
  | EmptyString => 0
  end.

(** [snprintf(buf, size, ...)] leaves in [buf] the first [size - 1] chars
    of the formatted text. *)
Definition snprintf (size : nat) (text : string) : string :=
  substring 0 (size - 1) text.

(** The double quote. *)
Definition dquote : ascii := ascii_of_nat 34.

(** A JSON key: the name between double quotes, and a colon. *)
Definition json_key (name : string) : string :=
  String dquote (name +:+ String dquote ":").

(** The format of [nativeGetModelInfo] with its two [%d] filled in. *)
Definition info_text (vocab_size context_size : string) : string :=
  "{" +:+ json_key "vocab_size" +:+ vocab_size +:+ "," +:+
  json_key "context_size" +:+ context_size +:+ "," +:+
  json_key "loaded" +:+ "true}".

(** The two getters of the inference library that only
    [nativeGetModelInfo] calls: [llama_n_vocab] returns an [int32_t] and
    [llama_n_ctx] a [uint32_t]. *)
Class LlamaInfo (L : Llama) : Type := {
  llama_n_vocab : llama_model -> Z;
  llama_n_ctx : llama_context -> Z
}.

Module RealInfo.
Section Info.
Context `{LlamaInfo}.

(** [nativeGetModelInfo] of the real build; it takes no lock and writes
    nothing. *)
Definition nativeGetModelInfo (st : Real.State) : string :=
  match Real.g_model st with
  | None => "{}"%string
  | Some model =>
      let n_vocab := to_int32 (llama_n_vocab model) in
      let n_ctx :=
        to_int32 (match Real.g_ctx st with
                  | Some ctx => llama_n_ctx ctx
                  | None => 0
                  end) in
      let info := snprintf 256 (info_text (format_d n_vocab) (format_d n_ctx)) in
      c_str info
  end.

End Info.
End RealInfo.

Module StubInfo.

(** [nativeGetModelInfo] of the stub build: a constant. *)
Definition nativeGetModelInfo : string :=
  "{" +:+ json_key "stub" +:+ "true," +:+ json_key "loaded" +:+ "false}".

End StubInfo.

#[export] Instance fixture_info : LlamaInfo Fixture.lib :=
  Build_LlamaInfo Fixture.lib
    ((fun _ : string => 32000) : llama_model (Llama := Fixture.lib) -> Z)
    ((fun ctx : Z => ctx) : llama_context (Llama := Fixture.lib) -> Z).

(** ** Strings of the host

    A [jstring] is a sequence of UTF-16 code units, the characters of a
    string of the host runtime. *)

Definition jchar : Type := Z.
Definition jstring : Type := list jchar.

Definition byte_char (b : Z) : ascii := ascii_of_nat (Z.to_nat b).

(** Modelled from the spec: the conversion of a host string into the
    bytes the native side reads (GetStringUTFChars of the JNI), absent
    from src/.  The spec has it "convert the prompt from the
    foreign-runtime string representation into a UTF-8 byte sequence";
    the JNI encodes each code unit on its own, in modified UTF-8: one byte
    for U+0001 to U+007F, two bytes for U+0000 and U+0080 to U+07FF, three
    bytes above.  This is UTF-8 but for U+0000 and for the characters
    outside the basic plane, which come as two surrogate code units. *)
Definition modified_utf8_char (u : jchar) : string :=
  if (1 <=? u) && (u <=? 127) then
    String (byte_char u) EmptyString
  else if u <=? 2047 then
    String (byte_char (Z.lor 192 (Z.shiftr u 6)))
      (String (byte_char (Z.lor 128 (Z.land u 63))) EmptyString)
  else
    String (byte_char (Z.lor 224 (Z.shiftr u 12)))
      (String (byte_char (Z.lor 128 (Z.land (Z.shiftr u 6) 63)))
         (String (byte_char (Z.lor 128 (Z.land u 63))) EmptyString)).

Fixpoint modified_utf8 (s : jstring) : string :=
  match s with
  | [] => EmptyString
  | u :: s' => modified_utf8_char u +:+ modified_utf8 s'
  end.

(** The characters of a literal of one-byte chars. *)
Fixpoint jchars (s : string) : jstring :=
  match s with
  | EmptyString => []
  | String c s' => Z.of_nat (nat_of_ascii c) :: jchars s'
  end.

(** A character that takes one byte in the native copy. *)
Definition one_byte (u : jchar) : Prop := 1 <= u <= 127.

Module Prompts.

(** 26 times the character U+00E9, two bytes each in the native copy. *)
Definition accents : jstring := replicate 26 233.

Definition accents_native : cstring := CString (modified_utf8 accents) eq_refl.

Definition yo : jstring := jchars "yo".

End Prompts.

(** ** A library that records what is submitted for decoding

    [recording L] is the library [L] with, beside its world, the list of
    the batches handed to [llama_decode] so far, oldest first. *)
Definition recording (L : Llama) : Llama :=
  {| world := (@world L * list llama_batch)%type;
     llama_model := @llama_model L;
     llama_context := @llama_context L;
     llama_logits := @llama_logits L;
     llama_backend_init := fun w => (@llama_backend_init L (fst w), snd w);
     llama_backend_free := fun w => (@llama_backend_free L (fst w), snd w);
     model_defaults := @model_defaults L;
     ctx_defaults := @ctx_defaults L;
     llama_model_default_params := @llama_model_default_params L;
     llama_context_default_params := @llama_context_default_params L;
     llama_load_model_from_file := fun path p w =>
       let '(m, w') := @llama_load_model_from_file L path p (fst w) in
       (m, (w', snd w));
     llama_new_context_with_model := fun m p w =>
       let '(c, w') := @llama_new_context_with_model L m p (fst w) in
       (c, (w', snd w));
     llama_free := fun c w => (@llama_free L c (fst w), snd w);
     llama_free_model := fun m w => (@llama_free_model L m (fst w), snd w);
     llama_tokenize := @llama_tokenize L;
     llama_kv_cache_clear := fun c w => (@llama_kv_cache_clear L c (fst w), snd w);
     llama_decode := fun c batch w =>
       let '(rc, w') := @llama_decode L c batch (fst w) in
       (rc, (w', snd w ++ [batch]));
     llama_get_logits_ith := fun c i w => @llama_get_logits_ith L c i (fst w);
     llama_sample_token_greedy := fun c lg w =>
       @llama_sample_token_greedy L c lg (fst w);
     llama_token_is_eog := @llama_token_is_eog L;
     token_piece := @token_piece L |}.

(** The batches recorded in a world of [recording L]. *)
Definition submitted {L : Llama} (w : @world (recording L)) : list llama_batch :=
  snd w.

(** The locals of the decode loop over [L], of the locals over
    [recording L]: the record is forgotten. *)
Definition unrecorded {L : Llama} (ls : @Real.loop_state (recording L))
  : @Real.loop_state L :=
  @Real.Build_loop_state L (Real.l_result ls) (Real.l_batch ls)
    (Real.l_n_cur ls) (Real.l_n_gen ls) (fst (Real.l_world ls))
    (Real.l_cancel ls) (Real.l_sampled ls).

Module Recorded.

Definition lib : Llama := recording Fixture.lib.

(** The batch of one token at one position. *)
Definition single (tok : llama_token) (p : llama_pos) : llama_batch :=
  match llama_batch_add (llama_batch_init 512 0 1) tok p [0] true with
  | Done batch => batch
  | OutOfBounds => llama_batch_init 512 0 1
  end.

(** The locals on entry to the decode loop after a prompt of three
    tokens, nothing recorded yet, and on exit from it with a budget of 10
    tokens and no cancel request. *)
Definition entry : @Real.loop_state lib :=
  @Real.Build_loop_state lib EmptyString (llama_batch_init 512 0 1) 3 0
    (1%nat, []) false [].

Definition exit : @Real.loop_state lib :=
  @Real.Build_loop_state lib "hi!" (single 33 6) 7 4
    (5%nat, [single 104 3; single 105 4; single 300 5; single 33 6])
    false [104; 105; 300; 33].

End Recorded.

(** ** Decimal numerals *)

Definition is_digit (c : ascii) : bool :=
  let n := nat_of_ascii c in (48 <=? n)%nat && (n <=? 57)%nat.

Fixpoint all_digits (s : string) : bool :=
  match s with
  | EmptyString => true
  | String c s' => is_digit c && all_digits s'
  end.

(** Digits with no leading zero. *)
Definition positive_numeral (s : string) : bool :=
  match s with
  | EmptyString => false
  | String c _ => all_digits s && negb (Ascii.eqb c "0"%char)
  end.

(** The numerals [%d] prints: 0, digits with no leading zero, or a minus
    sign and digits with no leading zero. *)
Definition decimal_numeral (s : string) : bool :=
  match s with
  | String c s' =>
      if Ascii.eqb c "-"%char then positive_numeral s'
      else positive_numeral s || String.eqb s "0"
  | EmptyString => false
  end.

(** ** A load in progress *)

Section InProgress.
Context `{Llama}.

(** The globals and the world of [nativeLoadModel] between line 97, where
    the model is constructed, and line 111, where the context is:
    [None] when the model construction fails. *)
Definition load_model_constructed (path : string) (st : Real.State) (w : world)
  : option (Real.State * world) :=
  let '(st, w) := Real.release_ctx st w in
  let '(st, w) := Real.release_model st w in
  let '(m, w) := llama_load_model_from_file path Real.model_params w in
  match m with
  | Some _ => Some (Real.set_model m st, w)
  | None => None
  end.

(** The rest of [nativeLoadModel], lines 105 to 128, from the globals and
    the world [load_model_constructed] leaves, [model] being [g_model]. *)
Definition load_model_finish (nCtx nThreads : Z) (model : llama_model)
    (st : Real.State) (w : world) : bool * Real.State * world :=
  let '(c, w) :=
    llama_new_context_with_model model (Real.ctx_params nCtx nThreads) w in
  let st := Real.set_ctx c st in
  match c with
  | None => (false, Real.set_model None st, llama_free_model model w)
  | Some _ => (true, Real.set_model_loaded true st, w)
  end.

End InProgress.

(** * Properties *)

(** ** C strings *)

Lemma c_str_nul_free (s : string) : nul_free s = true -> c_str s = s.
Proof.
  induction s as [|c s IH]; simpl; [reflexivity|].
  destruct (Ascii.eqb c NUL); simpl; [discriminate|].
  intros Hs. now rewrite IH.
Qed.

Lemma nul_free_app (s t : string) :
  nul_free (s +:+ t) = nul_free s && nul_free t.
Proof.
  induction s as [|c s IH]; simpl; [reflexivity|].
  now rewrite IH, andb_assoc.
Qed.

Lemma nul_free_substring (s : string) (pos count : nat) :
  nul_free s = true -> nul_free (substring pos count s) = true.
Proof.
  revert pos count.
  induction s as [|c s IH]; intros pos count Hs.
  - destruct pos, count; reflexivity.
  - simpl in Hs. apply andb_true_iff in Hs as [Hc Hs].
    destruct pos as [|pos].
    + destruct count as [|count]; simpl; [reflexivity|].
      now rewrite Hc, IH.
    + simpl. now apply IH.
Qed.

Lemma nul_free_stub_response (p : string) :
  nul_free p = true -> nul_free (Stub.stub_response p) = true.
Proof.
  intros Hp. unfold Stub.stub_response, substr.
  rewrite !nul_free_app, nul_free_substring by assumption.
  reflexivity.
Qed.

Lemma app_cons (c : ascii) (s t : string) : String c s +:+ t = String c (s +:+ t).
Proof. reflexivity. Qed.

Lemma app_assoc_string (s t u : string) : (s +:+ t) +:+ u = s +:+ (t +:+ u).
Proof.
  induction s as [|c s IH]; [reflexivity|].
  rewrite !app_cons. now rewrite IH.
Qed.

Lemma app_empty_r (s : string) : s +:+ EmptyString = s.
Proof.
  induction s as [|c s IH]; [reflexivity|].
  change (String c (s +:+ EmptyString) = String c s). now rewrite IH.
Qed.

Lemma length_app_string (s t : string) :
  String.length (s +:+ t) = (String.length s + String.length t)%nat.
Proof.
  induction s as [|c s IH]; [reflexivity|].
  rewrite app_cons. simpl. now rewrite IH.
Qed.

Lemma length_substring_0 (s : string) :
  forall n : nat, String.length (substring 0 n s) = Nat.min n (String.length s).
Proof.
  induction s as [|c s IH]; intros [|n]; simpl; try reflexivity.
  now rewrite IH.
Qed.

Lemma substring_0_short (s : string) :
  forall n : nat, (String.length s <= n)%nat -> substring 0 n s = s.
Proof.
  induction s as [|c s IH]; intros [|n] Hn; simpl in *; try reflexivity; try lia.
  rewrite IH by lia. reflexivity.
Qed.

Lemma substring_0_prefix (s : string) :
  forall n : nat, exists rest, s = substring 0 n s +:+ rest.
Proof.
  induction s as [|c s IH]; intros [|n].
  - exists EmptyString. reflexivity.
  - exists EmptyString. reflexivity.
  - exists (String c s). reflexivity.
  - destruct (IH n) as [rest Hrest]. exists rest.
    cbn [substring]. rewrite app_cons. now rewrite <- Hrest.
Qed.

(** ** Model lifecycle of the real build *)

Section Lifecycle.
Context `{Llama}.

Lemma release_ctx_state (st : Real.State) (w : world) :
  fst (Real.release_ctx st w) = Real.set_ctx None st.
Proof.
  unfold Real.release_ctx. destruct st as [m [c|] l g]; reflexivity.
Qed.

Lemma release_model_state (st : Real.State) (w : world) :
  fst (Real.release_model st w) = Real.set_model None st.
Proof.
  unfold Real.release_model. destruct st as [[m|] c l g]; reflexivity.
Qed.

(** A failed load returns with both handles cleared and [g_model_loaded]
    as it was on entry. *)
Lemma nativeLoadModel_failure (path : string) (nCtx nThreads : Z)
    (st st' : Real.State) (w w' : world) :
  Real.nativeLoadModel path nCtx nThreads st w = (false, st', w') ->
  Real.g_model st' = None /\ Real.g_ctx st' = None /\
  Real.g_model_loaded st' = Real.g_model_loaded st.
Proof.
  unfold Real.nativeLoadModel.
  pose proof (release_ctx_state st w) as Hc.
  destruct (Real.release_ctx st w) as [st1 w1]. simpl in Hc. subst st1.
  pose proof (release_model_state (Real.set_ctx None st) w1) as Hm.
  destruct (Real.release_model _ w1) as [st2 w2]. simpl in Hm. subst st2.
  destruct (llama_load_model_from_file path Real.model_params w2) as [[m|] w3].
  - destruct (llama_new_context_with_model m _ w3) as [[c|] w4];
      intros [= <- <-]; auto.
  - intros [= <- <-]; auto.
Qed.

(** A successful load returns with both handles present and
    [g_model_loaded] set. *)
Lemma nativeLoadModel_success (path : string) (nCtx nThreads : Z)
    (st st' : Real.State) (w w' : world) :
  Real.nativeLoadModel path nCtx nThreads st w = (true, st', w') ->
  is_Some (Real.g_model st') /\ is_Some (Real.g_ctx st') /\
  Real.g_model_loaded st' = true.
Proof.
  unfold Real.nativeLoadModel.
  destruct (Real.release_ctx st w) as [st1 w1].
  destruct (Real.release_model st1 w1) as [st2 w2].
  destruct (llama_load_model_from_file path Real.model_params w2) as [[m|] w3].
  - destruct (llama_new_context_with_model m _ w3) as [[c|] w4];
      intros [= <- <-]; simpl; eauto.
  - intros [=].
Qed.

Lemma nativeUnloadModel_state (st : Real.State) (w : world) :
  fst (Real.nativeUnloadModel st w) =
  {| Real.g_model := None; Real.g_ctx := None; Real.g_model_loaded := false;
     Real.g_cancel_generation := Real.g_cancel_generation st |}.
Proof.
  unfold Real.nativeUnloadModel.
  pose proof (release_ctx_state st w) as Hc.
  destruct (Real.release_ctx st w) as [st1 w1]. simpl in Hc. subst st1.
  pose proof (release_model_state (Real.set_ctx None st) w1) as Hm.
  destruct (Real.release_model _ w1) as [st2 w2]. simpl in Hm. subst st2.
  reflexivity.
Qed.

End Lifecycle.

(** ** Call sequences of the real build *)

Section Sequences.
Context `{Llama}.

(** [nativeGenerate] writes no global but the cancel flag. *)
Lemma nativeGenerate_writes (prompt : cstring) (maxTokens : Z)
    (temperature : jfloat) (cancel_req : nat -> bool) (st st' : Real.State)
    (w w' : world) (s : string) (e : Real.gen_exit) :
  Real.nativeGenerate prompt maxTokens temperature cancel_req st w
  = Done (s, e, st', w') ->
  st' = st \/ exists b, st' = Real.set_cancel_generation b st.
Proof.
  unfold Real.nativeGenerate.
  destruct (negb (Real.g_model_loaded st)); [intros [= <- <- <- <-]; now left|].
  simpl Real.g_ctx. simpl Real.g_model.
  destruct (Real.g_ctx st) as [ctx|];
    [|intros [= <- <- <- <-]; right; now exists false].
  destruct (Real.g_model st) as [model|];
    [|intros [= <- <- <- <-]; right; now exists false].
  destruct (llama_tokenize model _ _ _ _ _ _) as [n toks].
  destruct (n <? 0); [intros [= <- <- <- <-]; right; now exists false|].
  destruct (Real.prefill_batch _) as [batch|]; cbn [obind]; [|intros [=]].
  destruct (llama_decode ctx batch _) as [rc w1].
  destruct (negb (rc =? 0)); [intros [= <- <- <- <-]; right; now exists false|].
  destruct (Real.decode_loop _ _ _ _ _ _ _) as [ls|]; cbn [obind];
    [|intros [=]].
  intros [= <- <- <- <-]. right. now exists (Real.l_cancel ls).
Qed.

Lemma nativeGenerate_globals (prompt : cstring) (maxTokens : Z)
    (temperature : jfloat) (cancel_req : nat -> bool) (st st' : Real.State)
    (w w' : world) (s : string) (e : Real.gen_exit) :
  Real.nativeGenerate prompt maxTokens temperature cancel_req st w
  = Done (s, e, st', w') ->
  Real.g_model st' = Real.g_model st /\ Real.g_ctx st' = Real.g_ctx st /\
  Real.g_model_loaded st' = Real.g_model_loaded st.
Proof.
  intros Hgen. apply nativeGenerate_writes in Hgen as [->|[b ->]]; auto.
Qed.

Lemma step_handles_consistent (c : RealCalls.call) (st st' : Real.State)
    (w w' : world) :
  RealCalls.step c st w = Done (st', w') ->
  RealCalls.handles_consistent st ->
  RealCalls.handles_consistent st'.
Proof.
  unfold RealCalls.handles_consistent.
  destruct c as [|path nCtx nThreads|prompt maxTokens temperature cancel_req| | | |];
    cbn [RealCalls.step]; intros Hstep Hst.
  - injection Hstep as <- <-. exact Hst.
  - destruct (Real.nativeLoadModel path nCtx nThreads st w) as [[ok st1] w1] eqn:Hload.
    injection Hstep as <- <-. destruct ok.
    + apply nativeLoadModel_success in Hload as (Hm & Hc & Hl).
      split; [split; intros _; assumption | intros _; assumption].
    + apply nativeLoadModel_failure in Hload as (Hm & Hc & Hl).
      rewrite Hm, Hc. split; [split; intros [x Hx]; discriminate|].
      intros [m Hm']. discriminate.
  - destruct (Real.nativeGenerate _ _ _ _ st w) as [[[[s e] st1] w1]|] eqn:Hgen;
      cbn [obind] in Hstep; [|discriminate].
    injection Hstep as <- <-.
    apply nativeGenerate_globals in Hgen as (-> & -> & ->). exact Hst.
  - injection Hstep as <- <-. exact Hst.
  - pose proof (nativeUnloadModel_state st w) as Hun.
    injection Hstep as Hstep. rewrite Hstep in Hun. simpl in Hun. subst st'.
    simpl. split; [split; intros [x Hx]; discriminate|].
      intros [m Hm']. discriminate.
  - injection Hstep as <- <-. exact Hst.
  - pose proof (nativeUnloadModel_state st w) as Hun.
    unfold Real.nativeFree in Hstep.
    destruct (Real.nativeUnloadModel st w) as [st1 w1].
    injection Hstep as <- <-. simpl in Hun. subst st1.
    simpl. split; [split; intros [x Hx]; discriminate|].
      intros [m Hm']. discriminate.
Qed.

(** After every call of every sequence from the fresh process the handles
    are both present or both absent, and present only with
    [g_model_loaded] set. *)
Lemma run_handles_consistent (cs : list RealCalls.call) :
  forall (st st' : Real.State) (w w' : world),
    RealCalls.run cs st w = Done (st', w') ->
    RealCalls.handles_consistent st ->
    RealCalls.handles_consistent st'.
Proof.
  induction cs as [|c cs IH]; intros st st' w w' Hrun Hst.
  - injection Hrun as <- <-. exact Hst.
  - cbn [RealCalls.run] in Hrun.
    destruct (RealCalls.step c st w) as [[st1 w1]|] eqn:Hstep;
      cbn [obind] in Hrun; [|discriminate].
    apply (IH _ _ _ _ Hrun).
    exact (step_handles_consistent c st st1 w w1 Hstep Hst).
Qed.

Lemma fresh_handles_consistent : RealCalls.handles_consistent Real.fresh.
Proof.
  split; [split; intros [x Hx]; discriminate | intros [x Hx]; discriminate].
Qed.

End Sequences.

(** C1, at a failing input.  A model is loaded; the next [nativeLoadModel]
    fails, once at model construction (the file is missing) and once at
    context construction (the context asked for is too large).  Either way
    it returns false with both handles cleared, and [g_model_loaded] is
    still true: the process is not left in the no-model state. *)
Theorem failed_reload_keeps_model_loaded :
  Real.g_model_loaded (fst Fixture.loaded) = true /\
  Real.nativeLoadModel "/missing.gguf" 1024 2 (fst Fixture.loaded) (snd Fixture.loaded)
  = (false,
     {| Real.g_model := None; Real.g_ctx := None;
        Real.g_model_loaded := true; Real.g_cancel_generation := false |},
     O) /\
  Real.nativeLoadModel Fixture.model_file 10000 2 (fst Fixture.loaded) (snd Fixture.loaded)
  = (false,
     {| Real.g_model := None; Real.g_ctx := None;
        Real.g_model_loaded := true; Real.g_cancel_generation := false |},
     O).
Proof. repeat split. Qed.

(** C2, at a failing call sequence.  From the fresh process, init, a
    successful load and a failed load end in a state in which
    [g_model_loaded] is true and neither handle is present: I2 does not
    hold there. *)
Theorem failed_reload_breaks_loaded_iff_handles :
  exists st w,
    RealCalls.run (H := Fixture.lib)
      [RealCalls.Init;
       RealCalls.LoadModel Fixture.model_file 0 0;
       RealCalls.LoadModel "/missing.gguf" 1024 2]
      Real.fresh O = Done (st, w) /\
    Real.g_model_loaded st = true /\
    Real.g_model st = None /\ Real.g_ctx st = None /\
    ~ RealCalls.loaded_iff_handles st.
Proof.
  eexists _, _. split; [reflexivity|]. simpl.
  repeat split.
  intros [Hl _]. destruct (Hl eq_refl) as [[m Hm] _]. discriminate.
Qed.

(** C7.  [nativeLoadModel] resolves a context size [nCtx <= 0] to 2048 and
    a thread count [nThreads <= 0] to 4, keeps positive values, uses the
    one resolved thread count for both thread settings, and, once the
    model is constructed, keeps in [g_ctx] the context that the library
    builds from exactly these parameters. *)
Theorem load_defaults `{Llama} (path : string) (nCtx nThreads : Z)
    (st : Real.State) (w : world) :
  let resolved : llama_context_params ctx_defaults :=
    {| n_ctx := if nCtx <=? 0 then 2048 else nCtx;
       n_threads := if nThreads <=? 0 then 4 else nThreads;
       n_threads_batch := if nThreads <=? 0 then 4 else nThreads;
       ctx_other := ctx_other llama_context_default_params |} in
  Real.ctx_params nCtx nThreads = resolved /\
  n_threads_batch resolved = n_threads resolved /\
  forall st1 w1 st2 w2 model w3,
    Real.release_ctx st w = (st1, w1) ->
    Real.release_model st1 w1 = (st2, w2) ->
    llama_load_model_from_file path Real.model_params w2 = (Some model, w3) ->
    let built := llama_new_context_with_model model resolved w3 in
    let '(ok, st', _) := Real.nativeLoadModel path nCtx nThreads st w in
    Real.g_ctx st' = fst built /\ ok = bool_decide (is_Some (fst built)).
Proof.
  intros resolved.
  assert (Hp : Real.ctx_params nCtx nThreads = resolved).
  { unfold Real.ctx_params, resolved.
    replace (nCtx >? 0) with (negb (nCtx <=? 0)) by (rewrite Z.gtb_ltb; lia).
    replace (nThreads >? 0) with (negb (nThreads <=? 0)) by (rewrite Z.gtb_ltb; lia).
    destruct (nCtx <=? 0), (nThreads <=? 0); reflexivity. }
  split; [exact Hp|]. split; [reflexivity|].
  intros st1 w1 st2 w2 model w3 H1 H2 H3 built.
  unfold Real.nativeLoadModel. rewrite H1, H2, H3, Hp.
  subst built.
  destruct (llama_new_context_with_model model resolved w3) as [[c|] w4];
    simpl; split; reflexivity.
Qed.

Lemma load_defaults_witness :
  let '(ok, st', _) :=
    Real.nativeLoadModel (H := Fixture.lib) Fixture.model_file 0 (-3) Real.fresh O in
  Real.g_ctx st' = Some 2048 /\ ok = true.
Proof.
  pose proof (load_defaults (H := Fixture.lib) Fixture.model_file 0 (-3)
                Real.fresh O) as [_ [_ Hb]].
  specialize (Hb Real.fresh O Real.fresh O Fixture.model_file O
                eq_refl eq_refl eq_refl).
  exact Hb.
Defined.

(** ** Generation without a loaded model *)

(** C3.  In both builds, for every prompt, token budget and temperature
    (and, in the real build, whatever other threads request meanwhile),
    [nativeGenerate] entered with [g_model_loaded] false returns exactly
    "[Error: Model not loaded]" and leaves every global, the cancel flag
    and the handles included, and the library's world as they were. *)
Theorem generate_not_loaded :
  (forall (L : Llama) (prompt : cstring) (maxTokens : Z) (temperature : jfloat)
          (cancel_req : nat -> bool) (st : Real.State) (w : world),
      Real.g_model_loaded st = false ->
      Real.nativeGenerate prompt maxTokens temperature cancel_req st w
      = Done ("[Error: Model not loaded]"%string, Real.NotLoaded, st, w)) /\
  (forall (prompt : cstring) (maxTokens : Z) (temperature : jfloat)
          (st : Stub.State),
      Stub.g_model_loaded st = false ->
      Stub.nativeGenerate prompt maxTokens temperature st
      = ("[Error: Model not loaded]"%string, st)).
Proof.
  split.
  - intros L prompt maxTokens temperature cancel_req st w Hl.
    unfold Real.nativeGenerate. now rewrite Hl.
  - intros prompt maxTokens temperature st Hl.
    unfold Stub.nativeGenerate. now rewrite Hl.
Qed.

Lemma generate_not_loaded_witness :
  Real.nativeGenerate (H := Fixture.lib) Fixture.yo 10 (JFloat 0)
    (Fixture.cancel_at 0) (Real.nativeCancelGeneration Real.fresh) O
  = Done ("[Error: Model not loaded]"%string, Real.NotLoaded,
          Real.nativeCancelGeneration Real.fresh, O) /\
  Stub.nativeGenerate Fixture.yo 10 (JFloat 0) Stub.fresh
  = ("[Error: Model not loaded]"%string, Stub.fresh).
Proof.
  destruct generate_not_loaded as [Hr Hs].
  split.
  - apply (Hr Fixture.lib). reflexivity.
  - apply Hs. reflexivity.
Defined.

(** With a model loaded the stub returns the bytes of its announcement,
    then what [substr(0, 50)] keeps of the native copy of the prompt,
    then "...". *)
Lemma stub_generate_loaded (prompt : cstring) (maxTokens : Z)
    (temperature : jfloat) (st : Stub.State) :
  Stub.g_model_loaded st = true ->
  fst (Stub.nativeGenerate prompt maxTokens temperature st)
  = ("[Stub Response] Model not compiled. Your prompt was: "
       +:+ substring 0 50 (chars prompt) +:+ "...")%string.
Proof.
  intros Hl. unfold Stub.nativeGenerate. rewrite Hl. simpl fst.
  rewrite c_str_nul_free.
  - reflexivity.
  - apply nul_free_stub_response, chars_nul_free.
Qed.

(** ** Host strings and their native copy *)

Lemma modified_utf8_app (a b : jstring) :
  modified_utf8 (a ++ b) = modified_utf8 a +:+ modified_utf8 b.
Proof.
  induction a as [|u a IH]; [reflexivity|].
  cbn [app modified_utf8]. rewrite IH. symmetry. apply app_assoc_string.
Qed.

Lemma length_modified_utf8_char (u : jchar) :
  (1 <= String.length (modified_utf8_char u))%nat.
Proof.
  unfold modified_utf8_char.
  destruct ((1 <=? u) && (u <=? 127)); [|destruct (u <=? 2047)]; simpl; lia.
Qed.

Lemma length_modified_utf8 (s : jstring) :
  (length s <= String.length (modified_utf8 s))%nat.
Proof.
  induction s as [|u s IH]; [reflexivity|].
  cbn [modified_utf8 length]. rewrite length_app_string.
  pose proof (length_modified_utf8_char u). lia.
Qed.

Lemma length_modified_utf8_one_byte (s : jstring) :
  Forall one_byte s -> String.length (modified_utf8 s) = length s.
Proof.
  induction 1 as [|u s Hu _ IH]; [reflexivity|].
  cbn [modified_utf8 length]. rewrite length_app_string, IH.
  unfold modified_utf8_char, one_byte in *.
  replace ((1 <=? u) && (u <=? 127)) with true; [reflexivity|].
  symmetry. apply andb_true_iff. split; apply Z.leb_le; lia.
Qed.

Lemma substring_0_app_exact (x y : string) :
  substring 0 (String.length x) (x +:+ y) = x.
Proof.
  induction x as [|c x IH].
  - destruct y; reflexivity.
  - rewrite app_cons. simpl. now rewrite IH.
Qed.

(** The first 50 bytes of the native copy are the copy of the first 50
    characters when those take one byte each, or when the whole copy has
    at most 50 bytes. *)
Lemma substring_50_modified_utf8 (s : jstring) :
  Forall one_byte (take 50 s) \/
  (String.length (modified_utf8 s) <= 50)%nat ->
  substring 0 50 (modified_utf8 s) = modified_utf8 (take 50 s).
Proof.
  intros [Hone|Hshort].
  - rewrite <- (take_drop 50 s) at 1. rewrite modified_utf8_app.
    pose proof (length_modified_utf8_one_byte _ Hone) as Hlen.
    rewrite length_take in Hlen.
    destruct (Nat.le_gt_cases 50 (length s)) as [Hge|Hlt].
    + replace 50%nat with (String.length (modified_utf8 (take 50 s))) at 1 by lia.
      apply substring_0_app_exact.
    + rewrite drop_ge by lia. cbn [modified_utf8]. rewrite app_empty_r.
      apply substring_0_short. lia.
  - pose proof (length_modified_utf8 s).
    rewrite substring_0_short by exact Hshort.
    now rewrite take_ge by lia.
Qed.

(** C4 refuted as stated, twice over.  In the stub build, on the fresh
    process, generate of the prompt "yo" does not return the stub
    response; and with a model loaded, generate of a prompt of 26
    characters U+00E9 does not return the stub response with these 26
    characters, the first 50 of the prompt, but with 25 of them. *)
Lemma stub_generate_not_first_50_characters :
  fst (Stub.nativeGenerate Fixture.yo 16 (JFloat 0) Stub.fresh)
  <> modified_utf8
       (jchars "[Stub Response] Model not compiled. Your prompt was: "
          ++ take 50 Prompts.yo ++ jchars "...") /\
  chars Fixture.yo = modified_utf8 Prompts.yo /\
  fst (Stub.nativeGenerate Prompts.accents_native 16 (JFloat 0)
         (snd (Stub.nativeLoadModel "/x.gguf" 0 0 Stub.fresh)))
  <> modified_utf8
       (jchars "[Stub Response] Model not compiled. Your prompt was: "
          ++ take 50 Prompts.accents ++ jchars "...") /\
  fst (Stub.nativeGenerate Prompts.accents_native 16 (JFloat 0)
         (snd (Stub.nativeLoadModel "/x.gguf" 0 0 Stub.fresh)))
  = modified_utf8
      (jchars "[Stub Response] Model not compiled. Your prompt was: "
         ++ replicate 25 233 ++ jchars "...").
Proof.
  split; [vm_compute; discriminate|].
  split; [reflexivity|].
  split; [vm_compute; discriminate | vm_compute; reflexivity].
Qed.

(** C4, amended.  In the stub build, for every prompt, token budget and
    temperature, generate entered with [g_model_loaded] true returns
    exactly "[Stub Response] Model not compiled. Your prompt was: "
    followed by the first 50 characters of the prompt followed by "...",
    provided the first 50 characters of the prompt take one byte each in
    the native copy or the whole native copy has at most 50 bytes. *)
Theorem stub_generate_first_50_characters (jprompt : jstring) (prompt : cstring)
    (maxTokens : Z) (temperature : jfloat) (st : Stub.State) :
  chars prompt = modified_utf8 jprompt ->
  Stub.g_model_loaded st = true ->
  Forall one_byte (take 50 jprompt) \/
  (String.length (chars prompt) <= 50)%nat ->
  fst (Stub.nativeGenerate prompt maxTokens temperature st)
  = modified_utf8
      (jchars "[Stub Response] Model not compiled. Your prompt was: "
         ++ take 50 jprompt ++ jchars "...").
Proof.
  intros Hcopy Hl Hcut.
  rewrite (stub_generate_loaded prompt maxTokens temperature st Hl).
  rewrite Hcopy in *.
  rewrite substring_50_modified_utf8 by exact Hcut.
  rewrite !modified_utf8_app. reflexivity.
Qed.

Lemma stub_generate_first_50_characters_witness :
  fst (Stub.nativeGenerate
         (CString "hello world, this is a test of the stub mode output" eq_refl)
         16 (JFloat 0)
         (snd (Stub.nativeLoadModel "/x.gguf" 0 0 Stub.fresh)))
  = "[Stub Response] Model not compiled. Your prompt was: hello world, this is a test of the stub mode outpu..."%string.
Proof.
  apply (stub_generate_first_50_characters
           (jchars "hello world, this is a test of the stub mode output")
           (CString "hello world, this is a test of the stub mode output" eq_refl)
           16 (JFloat 0) (snd (Stub.nativeLoadModel "/x.gguf" 0 0 Stub.fresh))).
  - reflexivity.
  - reflexivity.
  - left. apply Forall_take. cbn [jchars].
    repeat (constructor; [split; vm_compute; discriminate|]). constructor.
Defined.

(** No load among the calls: the stub stays unloaded. *)
Lemma stub_run_no_load (cs : list Stub.call) (st : Stub.State) :
  forallb (fun c => negb (Stub.is_load c)) cs = true ->
  Stub.g_model_loaded st = false ->
  Stub.g_model_loaded (Stub.run cs st) = false.
Proof.
  unfold Stub.run. revert st.
  induction cs as [|c cs IH]; intros st Hcs Hst; simpl; [exact Hst|].
  simpl in Hcs. apply andb_true_iff in Hcs as [Hc Hcs].
  apply IH; [exact Hcs|].
  destruct c; simpl in *; try assumption; try discriminate; try reflexivity.
  unfold Stub.nativeGenerate. rewrite Hst. exact Hst.
Qed.

Lemma stub_run_unload_last (cs : list Stub.call) (st : Stub.State) :
  Stub.g_model_loaded (Stub.run (cs ++ [Stub.UnloadModel]) st) = false.
Proof. unfold Stub.run. rewrite foldl_app. reflexivity. Qed.

(** C10.  In the stub build, after a call sequence from the fresh process
    that contains no [nativeLoadModel], or that ends with
    [nativeUnloadModel], [nativeGenerate] returns
    "[Error: Model not loaded]", which is not the stub response: the
    not-loaded check comes first in the stub build too. *)
Theorem stub_generate_before_load (cs : list Stub.call) (prompt : cstring)
    (maxTokens : Z) (temperature : jfloat) :
  forallb (fun c => negb (Stub.is_load c)) cs = true \/
  (exists cs', cs = cs' ++ [Stub.UnloadModel]) ->
  let returned :=
    fst (Stub.nativeGenerate prompt maxTokens temperature (Stub.run cs Stub.fresh)) in
  returned = "[Error: Model not loaded]"%string /\
  returned <> ("[Stub Response] Model not compiled. Your prompt was: "
                 +:+ substring 0 50 (chars prompt) +:+ "...")%string.
Proof.
  intros Hcs returned.
  assert (Hl : Stub.g_model_loaded (Stub.run cs Stub.fresh) = false).
  { destruct Hcs as [Hcs|[cs' ->]].
    - now apply stub_run_no_load.
    - apply stub_run_unload_last. }
  assert (Hr : returned = "[Error: Model not loaded]"%string).
  { subst returned. unfold Stub.nativeGenerate. now rewrite Hl. }
  split; [exact Hr|]. rewrite Hr. simpl. discriminate.
Qed.

Lemma stub_generate_before_load_witness :
  fst (Stub.nativeGenerate Fixture.yo 10 (JFloat 0)
         (Stub.run [Stub.Init; Stub.LoadModel "/x.gguf" 0 0; Stub.UnloadModel]
            Stub.fresh))
  = "[Error: Model not loaded]"%string.
Proof.
  apply (stub_generate_before_load
           [Stub.Init; Stub.LoadModel "/x.gguf" 0 0; Stub.UnloadModel]
           Fixture.yo 10 (JFloat 0)).
  right. exists [Stub.Init; Stub.LoadModel "/x.gguf" 0 0]. reflexivity.
Defined.

(** ** The decode loop *)

Lemma substring_all (s : string) : substring 0 (String.length s) s = s.
Proof. induction s as [|c s IH]; simpl; [reflexivity|]. now rewrite IH. Qed.

Section Loop.
Context `{Llama}.
Variables (model : llama_model) (ctx : llama_context).
Variables (maxTokens : Z) (cancel_req : nat -> bool).

(** What lines 210-214 append for a token is its piece when the piece
    fits the buffer, and nothing otherwise. *)
Lemma appended_fitting (tok : llama_token) (r : string) (n : Z) (buf : string) :
  llama_token_to_piece model tok 128 false = (n, buf) ->
  (if n >? 0 then append_n r buf n else r) = r +:+ Real.fitting_piece model tok.
Proof.
  unfold llama_token_to_piece, Real.fitting_piece, append_n.
  set (piece := token_piece model tok false).
  destruct (Z.leb_spec (Z.of_nat (String.length piece)) 128) as [Hle|Hgt].
  - intros [= <- <-].
    replace (String.length piece <=? 128)%nat with true
      by (symmetry; apply Nat.leb_le; lia).
    destruct (Z.gtb_spec (Z.of_nat (String.length piece)) 0) as [Hpos|Hz].
    + now rewrite Nat2Z.id, substring_all.
    + destruct piece; [now rewrite app_empty_r | simpl in Hz; lia].
  - intros [= <- <-].
    replace (String.length piece <=? 128)%nat with false
      by (symmetry; apply Nat.leb_gt; lia).
    destruct (Z.gtb_spec (- Z.of_nat (String.length piece)) 0); [lia|].
    now rewrite app_empty_r.
Qed.

(** The output after a run of the loop is the output before it followed
    by the fitting pieces of the tokens sampled in the run, none of them
    an end-of-generation token; the run samples at most as many tokens as
    the budget [maxTokens] leaves, and counts in [n_gen] every one of
    them except possibly the last. *)
Lemma decode_loop_spec (fuel : nat) :
  forall (k : nat) (ls ls' : Real.loop_state),
    Real.decode_loop model ctx maxTokens cancel_req fuel k ls = Done ls' ->
    exists new : list llama_token,
      Real.l_sampled ls' = Real.l_sampled ls ++ new /\
      Real.l_result ls' =
        foldl (fun r tok => r +:+ Real.fitting_piece model tok) (Real.l_result ls) new /\
      Forall (fun tok => llama_token_is_eog model tok = false) new /\
      Real.l_n_gen ls <= Real.l_n_gen ls' /\
      Real.l_n_gen ls' - Real.l_n_gen ls <= Z.of_nat (length new) /\
      Z.of_nat (length new) <= Z.max 0 (maxTokens - Real.l_n_gen ls).
Proof.
  induction fuel as [|fuel IH]; intros k ls ls' Hrun.
  - simpl in Hrun. injection Hrun as <-.
    exists []. rewrite app_nil_r. simpl. repeat split; try constructor; lia.
  - simpl in Hrun.
    destruct (Z.ltb_spec (Real.l_n_gen ls) maxTokens) as [Hlt|Hge]; simpl in Hrun.
    2: { injection Hrun as <-. exists []. rewrite app_nil_r. simpl.
         repeat split; try constructor; lia. }
    destruct (negb (Real.l_cancel ls || cancel_req k)).
    2: { injection Hrun as <-. exists []. rewrite app_nil_r. simpl.
         repeat split; try constructor; lia. }
    set (tok := llama_sample_token_greedy ctx _ _) in Hrun.
    destruct (llama_token_is_eog model tok) eqn:Heog.
    { injection Hrun as <-. exists []. rewrite app_nil_r. simpl.
      repeat split; try constructor; lia. }
    destruct (llama_token_to_piece model tok 128 false) as [n buf] eqn:Hpiece.
    rewrite (appended_fitting tok (Real.l_result ls) n buf Hpiece) in Hrun.
    destruct (llama_batch_add _ tok _ _ _) as [batch|]; simpl in Hrun;
      [|discriminate].
    destruct (llama_decode ctx batch (Real.l_world ls)) as [rc w'].
    destruct (negb (rc =? 0)).
    + injection Hrun as <-. exists [tok]. simpl.
      repeat split; try (repeat constructor; assumption); lia.
    + apply IH in Hrun as (new & Hs & Hr & Hf & Hn1 & Hn2 & Hn3).
      simpl in Hs, Hr, Hn1, Hn2, Hn3.
      exists (tok :: new). rewrite Hs, Hr, <- app_assoc. simpl.
      repeat split; try (constructor; assumption); lia.
Qed.

(** The fuel of [loop_fuel] is never used up: more fuel gives the same run. *)
Lemma decode_loop_fuel (fuel : nat) :
  forall (fuel' k : nat) (ls : Real.loop_state),
    Z.max 0 (maxTokens - Real.l_n_gen ls) < Z.of_nat fuel ->
    (fuel <= fuel')%nat ->
    Real.decode_loop model ctx maxTokens cancel_req fuel k ls
    = Real.decode_loop model ctx maxTokens cancel_req fuel' k ls.
Proof.
  induction fuel as [|fuel IH]; intros fuel' k ls Hfuel Hle; [lia|].
  destruct fuel' as [|fuel']; [lia|].
  simpl.
  destruct (Z.ltb_spec (Real.l_n_gen ls) maxTokens) as [Hlt|Hge]; simpl;
    [|reflexivity].
  destruct (negb (Real.l_cancel ls || cancel_req k)); [|reflexivity].
  destruct (llama_token_is_eog model _); [reflexivity|].
  destruct (llama_token_to_piece model _ 128 false) as [n buf].
  destruct (llama_batch_add _ _ _ _ _) as [batch|]; simpl; [|reflexivity].
  destruct (llama_decode ctx batch (Real.l_world ls)) as [rc w'].
  destruct (negb (rc =? 0)); [reflexivity|].
  apply IH; simpl; lia.
Qed.

End Loop.

(** ** nativeGenerate of the real build *)

Section Generate.
Context `{Llama}.

(** A call that returns past the decode loop returns the output string
    as a C string; the output string is made of the fitting pieces of the
    sampled tokens, which are at most [maxTokens] many. *)
Lemma nativeGenerate_generated (prompt : cstring) (maxTokens : Z)
    (temperature : jfloat) (cancel_req : nat -> bool) (st st' : Real.State)
    (w w' : world) (s : string) (n_gen : Z) (sampled : list llama_token) :
  Real.nativeGenerate prompt maxTokens temperature cancel_req st w
  = Done (s, Real.Generated n_gen sampled, st', w') ->
  exists model : llama_model,
    Real.g_model st = Some model /\
    s = c_str (Real.fitting_text model sampled) /\
    Forall (fun tok => llama_token_is_eog model tok = false) sampled /\
    0 <= n_gen <= Z.of_nat (length sampled) /\
    Z.of_nat (length sampled) <= Z.max 0 maxTokens.
Proof.
  unfold Real.nativeGenerate.
  destruct (negb (Real.g_model_loaded st)); [intros [=]|].
  simpl Real.g_ctx. simpl Real.g_model.
  destruct (Real.g_ctx st) as [ctx|]; [|intros [=]].
  destruct (Real.g_model st) as [model|]; [|intros [=]].
  destruct (llama_tokenize model _ _ _ _ _ _) as [n toks].
  destruct (n <? 0); [intros [=]|].
  destruct (Real.prefill_batch _) as [batch|]; cbn [obind]; [|intros [=]].
  destruct (llama_decode ctx batch _) as [rc w1].
  destruct (negb (rc =? 0)); [intros [=]|].
  destruct (Real.decode_loop _ _ _ _ _ _ _) as [ls|] eqn:Hloop; cbn [obind];
    [|intros [=]].
  intros [= <- <- <- <- <-].
  apply decode_loop_spec in Hloop as (new & Hs & Hr & Hf & Hn1 & Hn2 & Hn3).
  simpl in Hs, Hr, Hn1, Hn2, Hn3. subst new.
  exists model. unfold Real.fitting_text. rewrite Hr.
  repeat split; try assumption; lia.
Qed.

End Generate.

(** C6.  Every [nativeGenerate] call of the real build that returns past
    the decode loop returns an output made of the pieces of at most
    [maxTokens] sampled tokens, [n_gen] counting no more than those; for
    [maxTokens <= 0] no token is sampled and the empty string is
    returned. *)
Theorem generate_max_tokens `{Llama} (prompt : cstring) (maxTokens : Z)
    (temperature : jfloat) (cancel_req : nat -> bool) (st st' : Real.State)
    (w w' : world) (s : string) (n_gen : Z) (sampled : list llama_token) :
  Real.nativeGenerate prompt maxTokens temperature cancel_req st w
  = Done (s, Real.Generated n_gen sampled, st', w') ->
  (exists model : llama_model,
      Real.g_model st = Some model /\
      s = c_str (Real.fitting_text model sampled)) /\
  0 <= n_gen <= Z.of_nat (length sampled) /\
  Z.of_nat (length sampled) <= Z.max 0 maxTokens /\
  (maxTokens <= 0 -> sampled = [] /\ n_gen = 0 /\ s = EmptyString).
Proof.
  intros Hgen.
  apply nativeGenerate_generated in Hgen as (model & Hm & Hs & _ & Hn & Hmax).
  split; [exists model; split; assumption|].
  split; [exact Hn|]. split; [exact Hmax|].
  intros Hle.
  assert (Hnil : sampled = []) by (destruct sampled; [reflexivity|simpl in Hmax; lia]).
  subst sampled. simpl in Hn. repeat split; [lia|]. rewrite Hs. reflexivity.
Qed.

Lemma generate_max_tokens_witness :
  Real.nativeGenerate (H := Fixture.lib) Fixture.yo 2 (JFloat 0) Real.no_request
    (fst Fixture.loaded) (snd Fixture.loaded)
  = Done ("hi"%string, Real.Generated 2 [104; 105], fst Fixture.loaded, 3%nat) /\
  Z.of_nat (length [104; 105]) <= Z.max 0 2.
Proof.
  assert (Hrun :
    Real.nativeGenerate (H := Fixture.lib) Fixture.yo 2 (JFloat 0) Real.no_request
      (fst Fixture.loaded) (snd Fixture.loaded)
    = Done ("hi"%string, Real.Generated 2 [104; 105], fst Fixture.loaded, 3%nat))
    by reflexivity.
  split; [exact Hrun|].
  pose proof (generate_max_tokens (H := Fixture.lib) Fixture.yo 2 (JFloat 0)
                Real.no_request (fst Fixture.loaded)
                (fst Fixture.loaded) (snd Fixture.loaded) 3%nat
                "hi" 2 [104; 105] Hrun) as (_ & _ & Hmax & _).
  exact Hmax.
Defined.

(** ** Batches *)

Lemma store_in_range {A : Type} (arr : list A) (i : Z) (x : A) :
  0 <= i < Z.of_nat (length arr) ->
  store arr i x = Done (<[Z.to_nat i := x]> arr).
Proof.
  intros Hi. unfold store.
  destruct (Z.leb_spec 0 i); [|lia].
  destruct (Z.ltb_spec i (Z.of_nat (length arr))); [reflexivity|lia].
Qed.

Lemma store_out_of_range {A : Type} (arr : list A) (i : Z) (x : A) :
  i < 0 \/ Z.of_nat (length arr) <= i -> store arr i x = OutOfBounds.
Proof.
  intros Hi. unfold store.
  destruct (Z.leb_spec 0 i); [|reflexivity].
  destruct (Z.ltb_spec i (Z.of_nat (length arr))); [lia|reflexivity].
Qed.

Lemma batch_shape_init : batch_shape 512 (llama_batch_init 512 0 1).
Proof.
  unfold batch_shape, llama_batch_init. cbn [token pos n_seq_id seq_id logits].
  rewrite !length_replicate.
  repeat split. apply Forall_replicate. reflexivity.
Qed.

Lemma batch_shape_clear (cap : nat) (batch : llama_batch) :
  batch_shape cap batch -> batch_shape cap (llama_batch_clear batch).
Proof. intros Hs. exact Hs. Qed.

(** Within capacity, [llama_batch_add] with the single sequence id 0 writes
    the tuple at index [n_tokens] and moves [n_tokens] on. *)
Lemma llama_batch_add_in_range (cap : nat) (batch : llama_batch)
    (id : llama_token) (p : llama_pos) (lg : bool) :
  batch_shape cap batch ->
  0 <= n_tokens batch < Z.of_nat cap ->
  let n := Z.to_nat (n_tokens batch) in
  llama_batch_add batch id p [0] lg =
  Done {| n_tokens := n_tokens batch + 1;
          token := <[n := id]> (token batch);
          pos := <[n := p]> (pos batch);
          n_seq_id := <[n := 1]> (n_seq_id batch);
          seq_id := <[n := [0]]> (seq_id batch);
          logits := <[n := lg]> (logits batch) |}.
Proof.
  intros (Ht & Hp & Hn & Hs & Hl & Hrows) Hi n.
  unfold llama_batch_add.
  rewrite !store_in_range by lia. cbn [obind].
  unfold fetch. destruct (Z.leb_spec 0 (n_tokens batch)); [|lia].
  destruct (lookup_lt_is_Some_2 (seq_id batch) n) as [row Hrow]; [lia|].
  fold n. rewrite Hrow. cbn [obind].
  assert (Hlen : length row = 1%nat).
  { rewrite Forall_lookup in Hrows. exact (Hrows n row Hrow). }
  destruct row as [|r [|r' row]]; try discriminate.
  cbn [store_seq_ids]. rewrite store_in_range by (simpl; lia). cbn [obind].
  rewrite !store_in_range by lia. cbn [obind].
  reflexivity.
Qed.

(** Beyond capacity it writes out of bounds. *)
Lemma llama_batch_add_full (cap : nat) (batch : llama_batch)
    (id : llama_token) (p : llama_pos) (seq_ids : list llama_seq_id) (lg : bool) :
  batch_shape cap batch ->
  Z.of_nat cap <= n_tokens batch ->
  llama_batch_add batch id p seq_ids lg = OutOfBounds.
Proof.
  intros (Ht & _) Hi. unfold llama_batch_add.
  rewrite store_out_of_range by lia. reflexivity.
Qed.

Lemma batch_shape_add (cap : nat) (batch batch' : llama_batch)
    (id : llama_token) (p : llama_pos) (lg : bool) :
  batch_shape cap batch ->
  llama_batch_add batch id p [0] lg = Done batch' ->
  batch_shape cap batch' /\ n_tokens batch' = n_tokens batch + 1.
Proof.
  intros Hs Hadd.
  destruct (Z.lt_ge_cases (n_tokens batch) (Z.of_nat cap)) as [Hlt|Hge].
  - destruct (Z.lt_ge_cases (n_tokens batch) 0) as [Hneg|Hpos].
    + destruct Hs as (Ht & _). unfold llama_batch_add in Hadd.
      rewrite store_out_of_range in Hadd by lia. discriminate.
    + rewrite (llama_batch_add_in_range cap) in Hadd by (assumption || lia).
      injection Hadd as <-.
      destruct Hs as (Ht & Hp & Hn & Hq & Hl & Hrows).
      unfold batch_shape. cbn [token pos n_seq_id seq_id logits n_tokens].
      rewrite !length_insert. repeat split; try assumption.
      apply Forall_insert; [assumption|reflexivity].
  - rewrite (llama_batch_add_full cap) in Hadd by assumption. discriminate.
Qed.

Lemma batch_entry_add (cap : nat) (batch : llama_batch)
    (id : llama_token) (p : llama_pos) (lg : bool) (j : nat) :
  batch_shape cap batch ->
  0 <= n_tokens batch < Z.of_nat cap ->
  let n := Z.to_nat (n_tokens batch) in
  batch_entry
    {| n_tokens := n_tokens batch + 1;
       token := <[n := id]> (token batch);
       pos := <[n := p]> (pos batch);
       n_seq_id := <[n := 1]> (n_seq_id batch);
       seq_id := <[n := [0]]> (seq_id batch);
       logits := <[n := lg]> (logits batch) |} j
  = if decide (j = n) then Some (id, p, [0], lg) else batch_entry batch j.
Proof.
  intros (Ht & Hp & Hn & Hs & Hl & _) Hi n.
  unfold batch_entry. cbn [token pos n_seq_id seq_id logits].
  destruct (decide (j = n)) as [->|Hne].
  - rewrite !list_lookup_insert_eq by lia. reflexivity.
  - rewrite !list_lookup_insert_ne by congruence. reflexivity.
Qed.

(** The prompt loop, for a prompt that fits: every token lands at its
    position, under sequence id 0, with no logits asked. *)
Lemma add_prompt_spec (cap : nat) (tokens : list llama_token) :
  forall (i : nat) (batch : llama_batch),
    batch_shape cap batch ->
    n_tokens batch = Z.of_nat i ->
    (i + length tokens <= cap)%nat ->
    exists batch',
      Real.add_prompt tokens (Z.of_nat i) batch = Done batch' /\
      batch_shape cap batch' /\
      n_tokens batch' = Z.of_nat (i + length tokens) /\
      (forall j, (j < i)%nat -> batch_entry batch' j = batch_entry batch j) /\
      (forall j t, tokens !! j = Some t ->
         batch_entry batch' (i + j) = Some (t, Z.of_nat (i + j), [0], false)).
Proof.
  induction tokens as [|t tokens IH]; intros i batch Hs Hn Hcap.
  - exists batch. simpl. rewrite Nat.add_0_r.
    split; [reflexivity|]. split; [assumption|]. split; [assumption|].
    split; [reflexivity|]. intros j t' Hj. discriminate.
  - simpl in Hcap. cbn [Real.add_prompt].
    pose proof (llama_batch_add_in_range cap batch t (Z.of_nat i) false Hs) as Hadd.
    pose proof (batch_entry_add cap batch t (Z.of_nat i) false) as Hentry.
    rewrite Hn, Nat2Z.id in Hadd, Hentry.
    rewrite Hadd by lia. cbn [obind].
    set (batch1 := {| n_tokens := Z.of_nat i + 1 |}) in *.
    assert (Hs1 : batch_shape cap batch1 /\ n_tokens batch1 = n_tokens batch + 1).
    { apply (batch_shape_add cap batch batch1 t (Z.of_nat i) false Hs).
      apply Hadd. lia. }
    destruct Hs1 as [Hs1 _].
    replace (Z.of_nat i + 1) with (Z.of_nat (S i)) by lia.
    destruct (IH (S i) batch1 Hs1) as (batch' & Hrun & Hs' & Hn' & Hold & Hnew);
      [subst batch1; simpl; lia | lia |].
    exists batch'. split; [exact Hrun|]. split; [exact Hs'|].
    split; [rewrite Hn'; f_equal; simpl; lia|].
    split.
    + intros j Hj. rewrite Hold by lia.
      rewrite Hentry by (assumption || lia).
      destruct (decide (j = i)); [lia|reflexivity].
    + intros [|j] t' Hj.
      * simpl in Hj. injection Hj as <-. rewrite Nat.add_0_r.
        rewrite Hold by lia. rewrite Hentry by (assumption || lia).
        destruct (decide (i = i)); [reflexivity|congruence].
      * simpl in Hj. replace (i + S j)%nat with (S i + j)%nat by lia.
        now apply Hnew.
Qed.

(** The prompt loop, for a prompt that does not fit. *)
Lemma add_prompt_overflow (cap : nat) (tokens : list llama_token) :
  forall (i : nat) (batch : llama_batch),
    batch_shape cap batch ->
    n_tokens batch = Z.of_nat i ->
    (i <= cap < i + length tokens)%nat ->
    Real.add_prompt tokens (Z.of_nat i) batch = OutOfBounds.
Proof.
  induction tokens as [|t tokens IH]; intros i batch Hs Hn Hcap.
  - simpl in Hcap. lia.
  - simpl in Hcap. cbn [Real.add_prompt].
    destruct (decide (i = cap)) as [->|Hne].
    + rewrite (llama_batch_add_full cap) by (assumption || lia). reflexivity.
    + destruct (llama_batch_add batch t (Z.of_nat i) [0] false) as [batch1|] eqn:Hadd;
        [|reflexivity].
      cbn [obind].
      apply (batch_shape_add cap) in Hadd as [Hs1 Hn1]; [|assumption].
      replace (Z.of_nat i + 1) with (Z.of_nat (S i)) by lia.
      apply IH; [assumption|lia|lia].
Qed.

(** The batch of the prefill, for a prompt of 1 to 512 tokens. *)
Lemma prefill_batch_spec (tokens : list llama_token) :
  (1 <= length tokens <= 512)%nat ->
  exists batch,
    Real.prefill_batch tokens = Done batch /\
    batch_shape 512 batch /\
    n_tokens batch = Z.of_nat (length tokens) /\
    forall j t, tokens !! j = Some t ->
      batch_entry batch j
      = Some (t, Z.of_nat j, [0], bool_decide (j = (length tokens - 1)%nat)).
Proof.
  intros Hlen. unfold Real.prefill_batch.
  destruct (add_prompt_spec 512 tokens O (llama_batch_init 512 0 1))
    as (batch & Hrun & Hs & Hn & _ & Hnew);
    [apply batch_shape_init | reflexivity | simpl; lia |].
  change (Z.of_nat 0) with 0 in Hrun. rewrite Hrun. cbn [obind].
  simpl in Hn.
  pose proof Hs as (Ht & Hp & Hq & Hr & Hl & Hrows).
  rewrite store_in_range by lia. cbn [obind].
  eexists. split; [reflexivity|].
  split; [|split; [exact Hn|]].
  - unfold batch_shape, Real.set_logits.
    cbn [token pos n_seq_id seq_id logits]. rewrite length_insert.
    repeat split; assumption.
  - intros j t Hj. specialize (Hnew j t Hj). simpl in Hnew.
    unfold batch_entry, Real.set_logits in *.
    cbn [token pos n_seq_id seq_id logits] in *.
    destruct (token batch !! j) as [t0|]; [|discriminate]. cbn in Hnew |- *.
    destruct (pos batch !! j) as [p0|]; [|discriminate]. cbn in Hnew |- *.
    destruct (n_seq_id batch !! j) as [k0|]; [|discriminate]. cbn in Hnew |- *.
    destruct (seq_id batch !! j) as [row0|]; [|discriminate]. cbn in Hnew |- *.
    destruct (logits batch !! j) as [l0|] eqn:Hlj; [|discriminate].
    cbn in Hnew. injection Hnew as -> -> Hrow ->.
    apply lookup_lt_Some in Hj.
    replace (Z.to_nat (n_tokens batch - 1)) with (length tokens - 1)%nat by lia.
    destruct (decide (j = (length tokens - 1)%nat)) as [->|Hne].
    + rewrite list_lookup_insert_eq by lia. cbn.
      rewrite bool_decide_eq_true_2 by reflexivity. now rewrite Hrow.
    + rewrite list_lookup_insert_ne by congruence. rewrite Hlj. cbn.
      rewrite bool_decide_eq_false_2 by assumption. now rewrite Hrow.
Qed.

(** The prefill for a prompt of no token or of more than 512 tokens
    writes outside the batch. *)
Lemma prefill_batch_out_of_bounds (tokens : list llama_token) :
  length tokens = O \/ (512 < length tokens)%nat ->
  Real.prefill_batch tokens = OutOfBounds.
Proof.
  intros [Hz|Hbig]; unfold Real.prefill_batch.
  - destruct tokens; [|discriminate]. cbn [Real.add_prompt obind].
    rewrite store_out_of_range; [reflexivity|]. left. reflexivity.
  - change 0 with (Z.of_nat 0).
    rewrite (add_prompt_overflow 512);
      [reflexivity | apply batch_shape_init | reflexivity | lia].
Qed.

Lemma length_resize (tokens : list llama_token) (n : Z) :
  length (Real.resize tokens n) = Z.to_nat n.
Proof.
  unfold Real.resize. rewrite length_app, length_take, length_replicate. lia.
Qed.

(** ** Termination of the calls *)

Section Returns.
Context `{Llama}.

(** On a batch with room for one tuple the decode loop runs to its end. *)
Lemma decode_loop_total (model : llama_model) (ctx : llama_context)
    (maxTokens : Z) (cancel_req : nat -> bool) (cap : nat) (fuel : nat) :
  (1 <= cap)%nat ->
  forall (k : nat) (ls : Real.loop_state),
    batch_shape cap (Real.l_batch ls) ->
    exists ls', Real.decode_loop model ctx maxTokens cancel_req fuel k ls = Done ls'.
Proof.
  intros Hcap.
  induction fuel as [|fuel IH]; intros k ls Hs; [eexists; reflexivity|].
  simpl.
  destruct ((Real.l_n_gen ls <? maxTokens) && negb (Real.l_cancel ls || cancel_req k));
    [|eexists; reflexivity].
  destruct (llama_token_is_eog model _); [eexists; reflexivity|].
  destruct (llama_token_to_piece model _ 128 false) as [n buf].
  destruct (llama_batch_add _ _ _ _ _) as [batch|] eqn:Hadd.
  - cbn [obind].
    apply (batch_shape_add cap) in Hadd as [Hs' _];
      [|apply batch_shape_clear; assumption].
    destruct (llama_decode ctx batch (Real.l_world ls)) as [rc w'].
    destruct (negb (rc =? 0)); [eexists; reflexivity|].
    apply IH. exact Hs'.
  - rewrite (llama_batch_add_in_range cap) in Hadd;
      [discriminate | apply batch_shape_clear; assumption | simpl; lia].
Qed.

(** With a model loaded and a prompt of 1 to 512 tokens, [nativeGenerate]
    returns: with the decoding sentinel when the prefill fails, and past
    the decode loop otherwise. *)
Lemma nativeGenerate_returns (prompt : cstring) (maxTokens : Z)
    (temperature : jfloat) (cancel_req : nat -> bool) (st : Real.State)
    (w : world) (model : llama_model) (ctx : llama_context) (n : Z)
    (tokens : list llama_token) :
  Real.g_model_loaded st = true ->
  Real.g_model st = Some model ->
  Real.g_ctx st = Some ctx ->
  llama_tokenize model (chars prompt) (strlen prompt)
    (replicate (Z.to_nat (strlen prompt + 1)) 0) (strlen prompt + 1) true false
  = (n, tokens) ->
  1 <= n <= 512 ->
  exists s e st' w',
    Real.nativeGenerate prompt maxTokens temperature cancel_req st w
    = Done (s, e, st', w') /\
    (e = Real.DecodingFailed \/ exists n_gen sampled, e = Real.Generated n_gen sampled).
Proof.
  intros Hl Hm Hc Htok Hn.
  unfold Real.nativeGenerate. rewrite Hl. cbn [negb].
  simpl Real.g_ctx. simpl Real.g_model. rewrite Hc, Hm, Htok.
  destruct (Z.ltb_spec n 0); [lia|].
  destruct (prefill_batch_spec (Real.resize tokens n)) as (batch & Hb & Hs & _).
  { rewrite length_resize. lia. }
  rewrite Hb. cbn [obind].
  destruct (llama_decode ctx batch _) as [rc w1].
  destruct (negb (rc =? 0)); [eauto 8|].
  edestruct (decode_loop_total model ctx maxTokens cancel_req 512
               (Real.loop_fuel maxTokens)) as [ls Hloop]; [lia| |].
  2: { rewrite Hloop. cbn [obind]. eauto 10. }
  exact Hs.
Qed.

End Returns.

(** ** The prefill *)

(** C8, at a failing input.  A prompt of 512 chars tokenizes into 513
    tokens; the prefill adds them to the batch allocated for 512 and writes
    past its arrays: no batch holding the 513 tokens is built or
    submitted. *)
Theorem prefill_overflows_batch :
  fst (llama_tokenize (Llama := Fixture.lib) Fixture.model_file
         (chars Fixture.long_prompt) (strlen Fixture.long_prompt)
         (replicate (Z.to_nat (strlen Fixture.long_prompt + 1)) 0)
         (strlen Fixture.long_prompt + 1) true false) = 513 /\
  Real.nativeGenerate (H := Fixture.lib) Fixture.long_prompt 16 (JFloat 0)
    Real.no_request (fst Fixture.loaded) (snd Fixture.loaded)
  = OutOfBounds.
Proof. split; vm_compute; reflexivity. Qed.

(** ** Cancellation *)

Section Cancel.
Context `{Llama}.

(** A run of the loop in which the first cancel request shows at the
    check [k + j] goes as the run without requests whose budget ends at
    that check. *)
Lemma decode_loop_first_request (model : llama_model) (ctx : llama_context)
    (maxTokens : Z) (cancel_req : nat -> bool) (j : nat) :
  forall (fuelA fuelB k : nat) (ls : Real.loop_state),
    Real.l_cancel ls = false ->
    Real.l_n_gen ls = Z.of_nat k ->
    cancel_req (k + j)%nat = true ->
    (forall i, (k <= i < k + j)%nat -> cancel_req i = false) ->
    Z.of_nat (k + j) <= maxTokens ->
    (j < fuelA)%nat -> (j < fuelB)%nat ->
    match Real.decode_loop model ctx maxTokens cancel_req fuelA k ls,
          Real.decode_loop model ctx (Z.of_nat (k + j)) Real.no_request fuelB k ls with
    | Done a, Done b =>
        Real.l_result a = Real.l_result b /\ Real.l_n_gen a = Real.l_n_gen b /\
        Real.l_sampled a = Real.l_sampled b /\ Real.l_world a = Real.l_world b
    | OutOfBounds, OutOfBounds => True
    | _, _ => False
    end.
Proof.
  induction j as [|j IH]; intros fuelA fuelB k ls Hc Hn Hreq Hnone Hmax HA HB;
    (destruct fuelA as [|fuelA]; [lia|]); (destruct fuelB as [|fuelB]; [lia|]);
    cbn [Real.decode_loop]; rewrite Hc.
  - rewrite Nat.add_0_r in *. rewrite Hreq, Hn.
    rewrite Z.ltb_irrefl. cbn [orb negb andb].
    rewrite andb_false_r. simpl. auto.
  - replace (k + S j)%nat with (S k + j)%nat in * by lia.
    rewrite (Hnone k) by lia. unfold Real.no_request at 1.
    rewrite Hn.
    replace (Z.of_nat k <? maxTokens) with true by (symmetry; apply Z.ltb_lt; lia).
    replace (Z.of_nat k <? Z.of_nat (S k + j)) with true
      by (symmetry; apply Z.ltb_lt; lia).
    cbn [orb negb andb].
    destruct (llama_token_is_eog model _); [simpl; auto|].
    destruct (llama_token_to_piece model _ 128 false) as [n buf].
    destruct (llama_batch_add _ _ _ _ _) as [batch|]; cbn [obind]; [|exact I].
    destruct (llama_decode ctx batch (Real.l_world ls)) as [rc w'].
    destruct (negb (rc =? 0)); [simpl; auto|].
    apply IH; simpl; try reflexivity; try assumption; try lia.
    intros i Hi. apply Hnone. lia.
Qed.

Lemma nativeGenerate_reset (prompt : cstring) (maxTokens : Z)
    (temperature : jfloat) (cancel_req : nat -> bool) (st : Real.State) (w : world) :
  Real.g_model_loaded st = true ->
  Real.nativeGenerate prompt maxTokens temperature cancel_req st w
  = Real.nativeGenerate prompt maxTokens temperature cancel_req
      (Real.set_cancel_generation false st) w.
Proof.
  intros Hl. unfold Real.nativeGenerate. simpl Real.g_model_loaded.
  rewrite Hl. reflexivity.
Qed.

Lemma nativeGenerate_first_request (prompt : cstring) (maxTokens : Z)
    (temperature : jfloat) (cancel_req : nat -> bool) (k : nat)
    (st : Real.State) (w : world) :
  Real.g_model_loaded st = true ->
  Real.first_request cancel_req k ->
  Z.of_nat k <= maxTokens ->
  Real.observed (Real.nativeGenerate prompt maxTokens temperature cancel_req st w)
  = Real.observed
      (Real.nativeGenerate prompt (Z.of_nat k) temperature Real.no_request st w).
Proof.
  intros Hl [Hreq Hnone] Hmax.
  unfold Real.nativeGenerate. rewrite Hl. cbn [negb].
  simpl Real.g_ctx. simpl Real.g_model.
  destruct (Real.g_ctx st) as [ctx|]; [|reflexivity].
  destruct (Real.g_model st) as [model|]; [|reflexivity].
  destruct (llama_tokenize model _ _ _ _ _ _) as [n toks].
  destruct (n <? 0); [reflexivity|].
  destruct (Real.prefill_batch _) as [batch|]; cbn [obind]; [|reflexivity].
  destruct (llama_decode ctx batch _) as [rc w1].
  destruct (negb (rc =? 0)); [reflexivity|].
  match goal with
  | |- Real.observed (obind (Real.decode_loop _ _ _ _ ?fA _ ?ls) _) = _ =>
      pose proof (decode_loop_first_request model ctx maxTokens cancel_req k
                    fA (Real.loop_fuel (Z.of_nat k)) O ls) as Hsim
  end.
  simpl Nat.add in Hsim.
  destruct (Real.decode_loop model ctx maxTokens _ _ _ _) as [a|];
    destruct (Real.decode_loop model ctx (Z.of_nat k) _ _ _ _) as [b|];
    cbn [obind Real.observed].
  - destruct Hsim as (Hr & Hg & Hs & Hw);
      try reflexivity; try assumption; try (unfold Real.loop_fuel; lia).
    + intros i Hi. apply Hnone. lia.
    + now rewrite Hr, Hg, Hs, Hw.
  - exfalso. apply Hsim; try reflexivity; try assumption;
      try (unfold Real.loop_fuel; lia).
    intros i Hi. apply Hnone. lia.
  - exfalso. apply Hsim; try reflexivity; try assumption;
      try (unfold Real.loop_fuel; lia).
    intros i Hi. apply Hnone. lia.
  - reflexivity.
Qed.

End Cancel.

Section CancelFlag.
Context `{Llama}.

(** The loop sets the cancel flag only on a request of another thread. *)
Lemma decode_loop_cancel_origin (model : llama_model) (ctx : llama_context)
    (maxTokens : Z) (cancel_req : nat -> bool) (fuel : nat) :
  forall (k : nat) (ls ls' : Real.loop_state),
    Real.decode_loop model ctx maxTokens cancel_req fuel k ls = Done ls' ->
    Real.l_cancel ls' = true ->
    Real.l_cancel ls = true \/ exists i, cancel_req i = true.
Proof.
  induction fuel as [|fuel IH]; intros k ls ls' Hrun Hset.
  - simpl in Hrun. injection Hrun as <-. now left.
  - assert (Hnow : Real.l_cancel ls || cancel_req k = true ->
                   Real.l_cancel ls = true \/ exists i, cancel_req i = true).
    { intros Hor. apply orb_true_iff in Hor as [Hc|Hr]; eauto. }
    simpl in Hrun.
    destruct ((Real.l_n_gen ls <? maxTokens)
              && negb (Real.l_cancel ls || cancel_req k)).
    2: { injection Hrun as <-. apply Hnow, Hset. }
    destruct (llama_token_is_eog model _).
    { injection Hrun as <-. apply Hnow, Hset. }
    destruct (llama_token_to_piece model _ 128 false) as [n buf].
    destruct (llama_batch_add _ _ _ _ _) as [batch|]; simpl in Hrun;
      [|discriminate].
    destruct (llama_decode ctx batch (Real.l_world ls)) as [rc w'].
    destruct (negb (rc =? 0)).
    + injection Hrun as <-. apply Hnow, Hset.
    + destruct (IH _ _ _ Hrun Hset) as [Hc|Hr]; [apply Hnow, Hc | now right].
Qed.

(** After a call that found a model loaded the cancel flag is set only
    if another thread asked for it during the call. *)
Lemma nativeGenerate_cancel_origin (prompt : cstring) (maxTokens : Z)
    (temperature : jfloat) (cancel_req : nat -> bool) (st st' : Real.State)
    (w w' : world) (s : string) (e : Real.gen_exit) :
  Real.g_model_loaded st = true ->
  Real.nativeGenerate prompt maxTokens temperature cancel_req st w
  = Done (s, e, st', w') ->
  Real.g_cancel_generation st' = true ->
  exists i, cancel_req i = true.
Proof.
  intros Hl. unfold Real.nativeGenerate. rewrite Hl. cbn [negb].
  simpl Real.g_ctx. simpl Real.g_model.
  destruct (Real.g_ctx st) as [ctx|]; [|intros [= <- <- <- <-]; discriminate].
  destruct (Real.g_model st) as [model|]; [|intros [= <- <- <- <-]; discriminate].
  destruct (llama_tokenize model _ _ _ _ _ _) as [n toks].
  destruct (n <? 0); [intros [= <- <- <- <-]; discriminate|].
  destruct (Real.prefill_batch _) as [batch|]; cbn [obind]; [|intros [=]].
  destruct (llama_decode ctx batch _) as [rc w1].
  destruct (negb (rc =? 0)); [intros [= <- <- <- <-]; discriminate|].
  destruct (Real.decode_loop _ _ _ _ _ _ _) as [ls|] eqn:Hloop; cbn [obind];
    [|intros [=]].
  intros [= <- <- <- <-] Hset. cbn in Hset.
  destruct (decode_loop_cancel_origin _ _ _ _ _ _ _ _ Hloop Hset) as [Hc|Hr];
    [discriminate Hc | exact Hr].
Qed.

End CancelFlag.

(** C5 refuted as stated: in the real build, [nativeGenerate] called with
    the cancel flag set and no model loaded returns with the flag still
    set. *)
Lemma generate_not_loaded_keeps_cancel_flag :
  Real.nativeGenerate (H := Fixture.lib) Fixture.yo 10 (JFloat 0) Real.no_request
    (Real.nativeCancelGeneration Real.fresh) O
  = Done ("[Error: Model not loaded]"%string, Real.NotLoaded,
          {| Real.g_model := None; Real.g_ctx := None;
             Real.g_model_loaded := false;
             Real.g_cancel_generation := true |}, O).
Proof. reflexivity. Qed.

(** C5, amended.  A [nativeGenerate] call that finds no model loaded
    returns before the reset and leaves the cancel flag, with all the
    state, as it is.  A call that finds a model loaded resets the flag to
    false on entry: it goes as from a state whose flag is false, and when
    it returns the flag is set only if another thread asked for it during
    the call (in the stub build, where no thread can, it is false).  In
    the real build, when the first cancel request of another thread shows
    at the [k]-th check of the loop condition, with [k <= maxTokens], the
    loop exits there: the call returns what the same call without
    requests and with budget [k] returns, the partial output of [k]
    rounds, through the same return statement. *)
Theorem generate_cancel :
  (forall (L : Llama) (prompt : cstring) (maxTokens : Z) (temperature : jfloat)
          (cancel_req : nat -> bool) (st : Real.State) (w : world),
      Real.g_model_loaded st = false ->
      Real.nativeGenerate prompt maxTokens temperature cancel_req st w
      = Done ("[Error: Model not loaded]"%string, Real.NotLoaded, st, w)) /\
  (forall (prompt : cstring) (maxTokens : Z) (temperature : jfloat)
          (st : Stub.State),
      Stub.g_model_loaded st = false ->
      snd (Stub.nativeGenerate prompt maxTokens temperature st) = st) /\
  (forall (L : Llama) (prompt : cstring) (maxTokens : Z) (temperature : jfloat)
          (cancel_req : nat -> bool) (st : Real.State) (w : world),
      Real.g_model_loaded st = true ->
      Real.nativeGenerate prompt maxTokens temperature cancel_req st w
      = Real.nativeGenerate prompt maxTokens temperature cancel_req
          (Real.set_cancel_generation false st) w) /\
  (forall (L : Llama) (prompt : cstring) (maxTokens : Z) (temperature : jfloat)
          (cancel_req : nat -> bool) (st st' : Real.State) (w w' : world)
          (s : string) (e : Real.gen_exit),
      Real.g_model_loaded st = true ->
      Real.nativeGenerate prompt maxTokens temperature cancel_req st w
      = Done (s, e, st', w') ->
      Real.g_cancel_generation st' = true ->
      exists i, cancel_req i = true) /\
  (forall (prompt : cstring) (maxTokens : Z) (temperature : jfloat)
          (st : Stub.State),
      Stub.g_model_loaded st = true ->
      Stub.g_cancel_generation
        (snd (Stub.nativeGenerate prompt maxTokens temperature st)) = false) /\
  (forall (L : Llama) (prompt : cstring) (maxTokens : Z) (temperature : jfloat)
          (cancel_req : nat -> bool) (k : nat) (st : Real.State) (w : world),
      Real.g_model_loaded st = true ->
      Real.first_request cancel_req k ->
      Z.of_nat k <= maxTokens ->
      Real.observed
        (Real.nativeGenerate prompt maxTokens temperature cancel_req st w)
      = Real.observed
          (Real.nativeGenerate prompt (Z.of_nat k) temperature Real.no_request st w)).
Proof.
  repeat split.
  - intros L prompt maxTokens temperature cancel_req st w Hl.
    unfold Real.nativeGenerate. now rewrite Hl.
  - intros prompt maxTokens temperature st Hl.
    unfold Stub.nativeGenerate. now rewrite Hl.
  - intros L. apply nativeGenerate_reset.
  - intros L. apply nativeGenerate_cancel_origin.
  - intros prompt maxTokens temperature st Hl.
    unfold Stub.nativeGenerate. rewrite Hl. reflexivity.
  - intros L. apply nativeGenerate_first_request.
Qed.

Lemma generate_cancel_witness :
  Real.observed
    (Real.nativeGenerate (H := Fixture.lib) Fixture.yo 10 (JFloat 0)
       (Fixture.cancel_at 2) (fst Fixture.loaded) (snd Fixture.loaded))
  = Done ("hi"%string, Real.Generated 2 [104; 105], 3%nat).
Proof.
  destruct generate_cancel as (_ & _ & _ & _ & _ & Hcancel).
  rewrite (Hcancel Fixture.lib Fixture.yo 10 (JFloat 0) (Fixture.cancel_at 2) 2%nat
             (fst Fixture.loaded) (snd Fixture.loaded)).
  - reflexivity.
  - reflexivity.
  - split; [reflexivity|]. intros [|[|i]] Hi; [reflexivity|reflexivity|lia].
  - simpl. lia.
Defined.

(** ** Pieces *)

(** C9, at a failing input.  For the prompt "yo" the loop samples the
    tokens 104, 105, 300 and 33, none an end-of-generation token; the
    piece of 300 is 129 bytes long, one more than the conversion buffer
    of line 210 holds, and the output is "hi!": the piece of a sampled
    token is dropped, while the token is decoded and counted like the
    others. *)
Theorem long_piece_dropped :
  llama_token_is_eog (Llama := Fixture.lib) Fixture.model_file 300 = false /\
  String.length (token_piece (Llama := Fixture.lib) Fixture.model_file 300 false)
  = 129%nat /\
  (exists ls,
      Real.decode_loop (H := Fixture.lib) Fixture.model_file 2048 10 Real.no_request
        (Real.loop_fuel 10) 0 Fixture.loop_entry = Done ls /\
      Real.l_sampled ls = [104; 105; 300; 33] /\
      Real.l_result ls = "hi!"%string /\
      Real.l_result ls <> Real.pieces_text (H := Fixture.lib) Fixture.model_file
                            (Real.l_sampled ls)) /\
  Real.nativeGenerate (H := Fixture.lib) Fixture.yo 10 (JFloat 0) Real.no_request
    (fst Fixture.loaded) (snd Fixture.loaded)
  = Done ("hi!"%string, Real.Generated 4 [104; 105; 300; 33],
          fst Fixture.loaded, 5%nat).
Proof.
  split; [reflexivity|]. split; [reflexivity|]. split; [|reflexivity].
  eexists. split; [vm_compute; reflexivity|].
  split; [reflexivity|]. split; [reflexivity|].
  vm_compute. discriminate.
Qed.

Lemma foldl_fitting_pieces `{Llama} (model : llama_model)
    (toks : list llama_token) :
  Forall (fun tok => (String.length (token_piece model tok false) <= 128)%nat) toks ->
  forall r : string,
    foldl (fun r tok => r +:+ Real.fitting_piece model tok) r toks
    = foldl (fun r tok => r +:+ token_piece model tok false) r toks.
Proof.
  induction 1 as [|tok toks Hfit _ IH]; intros r; simpl; [reflexivity|].
  rewrite IH. unfold Real.fitting_piece.
  replace (String.length (token_piece model tok false) <=? 128)%nat with true
    by (symmetry; apply Nat.leb_le; exact Hfit).
  reflexivity.
Qed.

(** What a run of the decode loop appends to the output string: for
    every token it samples that is not the end-of-generation marker, in
    sampling order, the token's piece in full when the piece is at most
    128 bytes long, and nothing when it is longer. *)
Lemma piece_appended_when_fits `{Llama} (model : llama_model)
    (ctx : llama_context) (maxTokens : Z) (cancel_req : nat -> bool)
    (fuel k : nat) (ls ls' : Real.loop_state) :
  Real.decode_loop model ctx maxTokens cancel_req fuel k ls = Done ls' ->
  exists new : list llama_token,
    Real.l_sampled ls' = Real.l_sampled ls ++ new /\
    Forall (fun tok => llama_token_is_eog model tok = false) new /\
    Real.l_result ls' =
      foldl (fun r tok =>
               r +:+ (if (String.length (token_piece model tok false) <=? 128)%nat
                      then token_piece model tok false else EmptyString))
        (Real.l_result ls) new /\
    (Forall (fun tok => (String.length (token_piece model tok false) <= 128)%nat) new ->
     Real.l_result ls' =
       foldl (fun r tok => r +:+ token_piece model tok false) (Real.l_result ls) new).
Proof.
  intros Hrun.
  apply decode_loop_spec in Hrun as (new & Hs & Hr & Hf & _).
  exists new. split; [exact Hs|]. split; [exact Hf|].
  split; [exact Hr|].
  intros Hfit. rewrite Hr. now apply foldl_fitting_pieces.
Qed.

Lemma piece_appended_when_fits_witness :
  exists new : list llama_token,
    [104; 105; 300; 33] = [] ++ new /\
    "hi!"%string =
      foldl (fun r tok =>
               r +:+ (if (String.length (Fixture.piece tok) <=? 128)%nat
                      then Fixture.piece tok else EmptyString))
        EmptyString new.
Proof.
  destruct (piece_appended_when_fits (H := Fixture.lib) Fixture.model_file 2048 10
              Real.no_request (Real.loop_fuel 10) 0 Fixture.loop_entry
              Fixture.loop_exit)
    as (new & Hs & _ & Hr & _).
  - vm_compute. reflexivity.
  - exists new. split; [exact Hs | exact Hr].
Defined.

(** * Further properties of the bridge *)

(** ** Model lifecycle *)

(** X1.  In every state reached from the fresh process by calls of the real
    build, the model and context handles are both present or both absent;
    when they are present [g_model_loaded] is set, and when
    [g_model_loaded] is clear both are absent. *)
Theorem reachable_handles_consistent `{Llama} (cs : list RealCalls.call)
    (w w' : world) (st' : Real.State) :
  RealCalls.run cs Real.fresh w = Done (st', w') ->
  (is_Some (Real.g_model st') <-> is_Some (Real.g_ctx st')) /\
  (is_Some (Real.g_model st') -> Real.g_model_loaded st' = true) /\
  (Real.g_model_loaded st' = false ->
   Real.g_model st' = None /\ Real.g_ctx st' = None).
Proof.
  intros Hrun.
  destruct (run_handles_consistent cs Real.fresh st' w w' Hrun
              fresh_handles_consistent) as [Hiff Hl].
  split; [exact Hiff|]. split; [exact Hl|].
  intros Hoff.
  destruct (Real.g_model st') as [m|] eqn:Hm.
  - rewrite Hl in Hoff by eauto. discriminate.
  - split; [reflexivity|].
    destruct (Real.g_ctx st') as [c|]; [|reflexivity].
    destruct Hiff as [_ Hback]. destruct Hback as [m Hm']; [eauto|discriminate].
Qed.

Lemma reachable_handles_consistent_witness :
  (is_Some (Real.g_model (H := Fixture.lib) Real.fresh)
   <-> is_Some (Real.g_ctx (H := Fixture.lib) Real.fresh)) /\
  (is_Some (Real.g_model (H := Fixture.lib) Real.fresh) ->
   Real.g_model_loaded (H := Fixture.lib) Real.fresh = true) /\
  (Real.g_model_loaded (H := Fixture.lib) Real.fresh = false ->
   Real.g_model (H := Fixture.lib) Real.fresh = None /\
   Real.g_ctx (H := Fixture.lib) Real.fresh = None).
Proof.
  exact (reachable_handles_consistent (H := Fixture.lib)
           [RealCalls.Init; RealCalls.LoadModel Fixture.model_file 0 0;
            RealCalls.Generate Fixture.yo 2 (JFloat 0) Real.no_request;
            RealCalls.UnloadModel] O 3%nat Real.fresh
           ltac:(vm_compute; reflexivity)).
Defined.

(** X2.  [nativeUnloadModel] of the real build leaves no handle and
    [g_model_loaded] clear; a second unload right after changes neither
    the globals nor the library's world; and with nothing loaded it is a
    no-op that calls nothing of the library. *)
Theorem unload_idempotent `{Llama} (st : Real.State) (w : world) :
  let r := Real.nativeUnloadModel st w in
  Real.g_model (fst r) = None /\ Real.g_ctx (fst r) = None /\
  Real.nativeIsModelLoaded (fst r) = false /\
  Real.nativeUnloadModel (fst r) (snd r) = r /\
  (Real.g_model st = None -> Real.g_ctx st = None ->
   Real.g_model_loaded st = false -> r = (st, w)).
Proof.
  destruct st as [[m|] [c|] l g]; cbn; repeat split; try discriminate;
    intros _ _ Hl; cbn in Hl; now subst l.
Qed.

Lemma unload_idempotent_witness :
  Real.nativeUnloadModel (H := Fixture.lib) Real.fresh O = (Real.fresh, O).
Proof.
  apply (unload_idempotent (H := Fixture.lib) Real.fresh O); reflexivity.
Defined.

(** X3.  [nativeLoadModel] on any state goes as [nativeUnloadModel]
    followed by [nativeLoadModel]: the same return value, the same
    library calls, the same handles and cancel flag, and on success the
    same globals altogether. *)
Theorem reload_is_unload_then_load `{Llama} (path : string) (nCtx nThreads : Z)
    (st : Real.State) (w : world) :
  let '(ok, st1, w1) := Real.nativeLoadModel path nCtx nThreads st w in
  let '(st0, w0) := Real.nativeUnloadModel st w in
  let '(ok2, st2, w2) := Real.nativeLoadModel path nCtx nThreads st0 w0 in
  ok = ok2 /\ w1 = w2 /\
  Real.g_model st1 = Real.g_model st2 /\ Real.g_ctx st1 = Real.g_ctx st2 /\
  Real.g_cancel_generation st1 = Real.g_cancel_generation st2 /\
  (ok = true -> st1 = st2).
Proof.
  unfold Real.nativeLoadModel, Real.nativeUnloadModel.
  destruct st as [[m|] [c|] l g]; cbn;
    (destruct (llama_load_model_from_file path Real.model_params _) as [[m'|] w'];
     cbn;
     [destruct (llama_new_context_with_model m' _ w') as [[c'|] w'']; cbn|]);
    repeat split; intros; try reflexivity; discriminate.
Qed.

(** X4.  [nativeLoadModel] of the real build returns true exactly when it
    leaves both handles present, and then [g_model_loaded] is set. *)
Theorem load_true_iff_handles `{Llama} (path : string) (nCtx nThreads : Z)
    (st : Real.State) (w : world) :
  let '(ok, st', _) := Real.nativeLoadModel path nCtx nThreads st w in
  (ok = true <->
   is_Some (Real.g_model st') /\ is_Some (Real.g_ctx st')) /\
  (ok = true -> Real.nativeIsModelLoaded st' = true).
Proof.
  destruct (Real.nativeLoadModel path nCtx nThreads st w) as [[ok st'] w'] eqn:Hload.
  destruct ok.
  - apply nativeLoadModel_success in Hload as (Hm & Hc & Hl).
    split; [split; auto | intros _; exact Hl].
  - apply nativeLoadModel_failure in Hload as (Hm & Hc & Hl).
    split; [|discriminate].
    split; [discriminate|]. rewrite Hm. intros [[m Hm'] _]. discriminate.
Qed.

(** X5.  In the real build, [nativeGenerate] called right after
    [nativeUnloadModel] or [nativeFree] returns
    "[Error: Model not loaded]" and changes nothing. *)
Theorem generate_after_unload_or_free `{Llama} (prompt : cstring) (maxTokens : Z)
    (temperature : jfloat) (cancel_req : nat -> bool) (st : Real.State)
    (w : world) :
  (let '(st1, w1) := Real.nativeUnloadModel st w in
   Real.nativeGenerate prompt maxTokens temperature cancel_req st1 w1
   = Done ("[Error: Model not loaded]"%string, Real.NotLoaded, st1, w1)) /\
  (let '(st1, w1) := Real.nativeFree st w in
   Real.nativeGenerate prompt maxTokens temperature cancel_req st1 w1
   = Done ("[Error: Model not loaded]"%string, Real.NotLoaded, st1, w1)).
Proof.
  pose proof (nativeUnloadModel_state st w) as Hun.
  unfold Real.nativeFree.
  destruct (Real.nativeUnloadModel st w) as [st1 w1]. simpl in Hun.
  split; unfold Real.nativeGenerate; rewrite Hun; reflexivity.
Qed.

(** X6.  In the real build, when [nativeLoadModel] fails on a state whose
    [g_model_loaded] is set, the next [nativeGenerate] returns
    "[Error: Context not initialized]" for every prompt, with the cancel
    flag reset and no call to the library. *)
Theorem generate_after_failed_reload `{Llama} (path : string) (nCtx nThreads : Z)
    (st st' : Real.State) (w w' : world) (prompt : cstring) (maxTokens : Z)
    (temperature : jfloat) (cancel_req : nat -> bool) :
  Real.g_model_loaded st = true ->
  Real.nativeLoadModel path nCtx nThreads st w = (false, st', w') ->
  Real.nativeGenerate prompt maxTokens temperature cancel_req st' w'
  = Done ("[Error: Context not initialized]"%string, Real.NotInitialized,
          Real.set_cancel_generation false st', w').
Proof.
  intros Hl Hload.
  apply nativeLoadModel_failure in Hload as (Hm & Hc & Hl').
  unfold Real.nativeGenerate. rewrite Hl', Hl. cbn [negb].
  simpl Real.g_ctx. rewrite Hc. reflexivity.
Qed.

Lemma generate_after_failed_reload_witness :
  Real.nativeGenerate (H := Fixture.lib) Fixture.yo 10 (JFloat 0) Real.no_request
    {| Real.g_model := None; Real.g_ctx := None;
       Real.g_model_loaded := true; Real.g_cancel_generation := false |} O
  = Done ("[Error: Context not initialized]"%string, Real.NotInitialized,
          Real.set_cancel_generation false
            {| Real.g_model := None; Real.g_ctx := None;
               Real.g_model_loaded := true; Real.g_cancel_generation := false |},
          O).
Proof.
  apply (generate_after_failed_reload (H := Fixture.lib) "/missing.gguf" 1024 2
           (fst Fixture.loaded) _ (snd Fixture.loaded)).
  - reflexivity.
  - reflexivity.
Defined.

(** ** Generation in the real build *)

(** X7.  What each return of [nativeGenerate] leaves behind.  The
    not-loaded return happens exactly with [g_model_loaded] clear and
    changes nothing; the not-initialized return happens with the flag set
    and a handle missing, and the tokenization return after it, both with
    the cancel flag reset and the library's world untouched; the decoding
    return resets the cancel flag; the return past the loop changes no
    global but the cancel flag. *)
Theorem generate_exits `{Llama} (prompt : cstring) (maxTokens : Z)
    (temperature : jfloat) (cancel_req : nat -> bool) (st st' : Real.State)
    (w w' : world) (s : string) (e : Real.gen_exit) :
  Real.nativeGenerate prompt maxTokens temperature cancel_req st w
  = Done (s, e, st', w') ->
  match e with
  | Real.NotLoaded =>
      Real.g_model_loaded st = false /\
      s = "[Error: Model not loaded]"%string /\ st' = st /\ w' = w
  | Real.NotInitialized =>
      Real.g_model_loaded st = true /\
      (Real.g_ctx st = None \/ Real.g_model st = None) /\
      s = "[Error: Context not initialized]"%string /\
      st' = Real.set_cancel_generation false st /\ w' = w
  | Real.TokenizationFailed =>
      Real.g_model_loaded st = true /\
      s = "[Error: Tokenization failed]"%string /\
      st' = Real.set_cancel_generation false st /\ w' = w
  | Real.DecodingFailed =>
      Real.g_model_loaded st = true /\
      s = "[Error: Decoding failed]"%string /\
      st' = Real.set_cancel_generation false st
  | Real.Generated _ _ =>
      Real.g_model_loaded st = true /\
      exists b, st' = Real.set_cancel_generation b st
  end.
Proof.
  unfold Real.nativeGenerate.
  destruct (Real.g_model_loaded st) eqn:Hl; cbn [negb];
    [|intros [= <- <- <- <-]; auto].
  simpl Real.g_ctx. simpl Real.g_model.
  destruct (Real.g_ctx st) as [ctx|]; [|intros [= <- <- <- <-]; auto 6].
  destruct (Real.g_model st) as [model|]; [|intros [= <- <- <- <-]; auto 6].
  destruct (llama_tokenize model _ _ _ _ _ _) as [n toks].
  destruct (n <? 0); [intros [= <- <- <- <-]; auto|].
  destruct (Real.prefill_batch _) as [batch|]; cbn [obind]; [|intros [=]].
  destruct (llama_decode ctx batch _) as [rc w1].
  destruct (negb (rc =? 0)); [intros [= <- <- <- <-]; auto|].
  destruct (Real.decode_loop _ _ _ _ _ _ _) as [ls|]; cbn [obind];
    [|intros [=]].
  intros [= <- <- <- <-]. split; [reflexivity|]. now exists (Real.l_cancel ls).
Qed.

Lemma generate_exits_witness :
  Real.g_model_loaded (fst Fixture.loaded) = true /\
  exists b, fst Fixture.loaded = Real.set_cancel_generation b (fst Fixture.loaded).
Proof.
  exact (generate_exits (H := Fixture.lib) Fixture.yo 2 (JFloat 0) Real.no_request
           (fst Fixture.loaded) (fst Fixture.loaded) (snd Fixture.loaded) 3%nat
           "hi" (Real.Generated 2 [104; 105]) eq_refl).
Defined.

(** X8.  [nativeGenerate] never changes the model handle, the context
    handle or [g_model_loaded], whatever it returns. *)
Theorem generate_keeps_handles `{Llama} (prompt : cstring) (maxTokens : Z)
    (temperature : jfloat) (cancel_req : nat -> bool) (st st' : Real.State)
    (w w' : world) (s : string) (e : Real.gen_exit) :
  Real.nativeGenerate prompt maxTokens temperature cancel_req st w
  = Done (s, e, st', w') ->
  Real.g_model st' = Real.g_model st /\ Real.g_ctx st' = Real.g_ctx st /\
  Real.nativeIsModelLoaded st' = Real.nativeIsModelLoaded st.
Proof. apply nativeGenerate_globals. Qed.

Lemma generate_keeps_handles_witness :
  Real.g_model (fst Fixture.loaded) = Real.g_model (fst Fixture.loaded) /\
  Real.g_ctx (fst Fixture.loaded) = Real.g_ctx (fst Fixture.loaded) /\
  Real.nativeIsModelLoaded (fst Fixture.loaded)
  = Real.nativeIsModelLoaded (fst Fixture.loaded).
Proof.
  exact (generate_keeps_handles (H := Fixture.lib) Fixture.yo 10 (JFloat 0)
           (Fixture.cancel_at 1) (fst Fixture.loaded)
           (Real.set_cancel_generation true (fst Fixture.loaded))
           (snd Fixture.loaded) 2%nat "h" (Real.Generated 1 [104]) eq_refl).
Defined.

(** X9.  With a model loaded, [nativeGenerate] writes outside the prompt
    batch exactly when the tokenizer reports no token or more than 512
    tokens. *)
Theorem generate_out_of_bounds_iff `{Llama} (prompt : cstring) (maxTokens : Z)
    (temperature : jfloat) (cancel_req : nat -> bool) (st : Real.State)
    (w : world) (model : llama_model) (ctx : llama_context) (n : Z)
    (tokens : list llama_token) :
  Real.g_model_loaded st = true ->
  Real.g_model st = Some model ->
  Real.g_ctx st = Some ctx ->
  llama_tokenize model (chars prompt) (strlen prompt)
    (replicate (Z.to_nat (strlen prompt + 1)) 0) (strlen prompt + 1) true false
  = (n, tokens) ->
  Real.nativeGenerate prompt maxTokens temperature cancel_req st w = OutOfBounds
  <-> n = 0 \/ 512 < n.
Proof.
  intros Hl Hm Hc Htok. split.
  - intros Hoob.
    destruct (Z.lt_ge_cases n 0) as [Hneg|Hpos].
    + unfold Real.nativeGenerate in Hoob. rewrite Hl in Hoob. cbn [negb] in Hoob.
      simpl Real.g_ctx in Hoob. simpl Real.g_model in Hoob.
      rewrite Hc, Hm, Htok in Hoob.
      destruct (Z.ltb_spec n 0); [discriminate|lia].
    + destruct (Z.eq_dec n 0) as [Hz|Hnz]; [now left|].
      destruct (Z.lt_ge_cases 512 n) as [Hbig|Hfit]; [now right|].
      destruct (nativeGenerate_returns prompt maxTokens temperature cancel_req
                  st w model ctx n tokens Hl Hm Hc Htok)
        as (s & e & st' & w' & Hret & _); [lia|].
      rewrite Hret in Hoob. discriminate.
  - intros Hn.
    unfold Real.nativeGenerate. rewrite Hl. cbn [negb].
    simpl Real.g_ctx. simpl Real.g_model. rewrite Hc, Hm, Htok.
    destruct (Z.ltb_spec n 0); [lia|].
    rewrite prefill_batch_out_of_bounds; [reflexivity|].
    rewrite length_resize. lia.
Qed.

Lemma generate_out_of_bounds_iff_witness :
  Real.nativeGenerate (H := Fixture.lib) Fixture.yo 10 (JFloat 0) Real.no_request
    (fst Fixture.loaded) (snd Fixture.loaded) = OutOfBounds
  <-> 3 = 0 \/ 512 < 3.
Proof.
  exact (generate_out_of_bounds_iff (H := Fixture.lib) Fixture.yo 10 (JFloat 0)
           Real.no_request (fst Fixture.loaded) (snd Fixture.loaded)
           Fixture.model_file 2048 3 [1; 121; 111]
           eq_refl eq_refl eq_refl eq_refl).
Defined.

(** X10.  A cancel issued before [nativeGenerate] starts is discarded:
    with a model loaded, generation after [nativeCancelGeneration] goes
    exactly as without it. *)
Theorem cancel_before_generate_discarded `{Llama} (prompt : cstring)
    (maxTokens : Z) (temperature : jfloat) (cancel_req : nat -> bool)
    (st : Real.State) (w : world) :
  Real.g_model_loaded st = true ->
  Real.nativeGenerate prompt maxTokens temperature cancel_req
    (Real.nativeCancelGeneration st) w
  = Real.nativeGenerate prompt maxTokens temperature cancel_req st w.
Proof.
  intros Hl.
  rewrite (nativeGenerate_reset prompt maxTokens temperature cancel_req st w Hl).
  rewrite (nativeGenerate_reset prompt maxTokens temperature cancel_req
             (Real.nativeCancelGeneration st) w) by exact Hl.
  reflexivity.
Qed.

Lemma cancel_before_generate_discarded_witness :
  Real.nativeGenerate (H := Fixture.lib) Fixture.yo 10 (JFloat 0) Real.no_request
    (Real.nativeCancelGeneration (fst Fixture.loaded)) (snd Fixture.loaded)
  = Done ("hi!"%string, Real.Generated 4 [104; 105; 300; 33],
          fst Fixture.loaded, 5%nat).
Proof.
  rewrite (cancel_before_generate_discarded (H := Fixture.lib) Fixture.yo 10
             (JFloat 0) Real.no_request (fst Fixture.loaded)
             (snd Fixture.loaded) eq_refl).
  reflexivity.
Defined.

Lemma foldl_app_from {A : Type} (g : A -> string) (l : list A) :
  forall r : string,
    foldl (fun r x => r +:+ g x) r l
    = r +:+ foldl (fun r x => r +:+ g x) EmptyString l.
Proof.
  induction l as [|x l IH]; intros r; simpl.
  - now rewrite app_empty_r.
  - rewrite IH. rewrite (IH (EmptyString +:+ g x)).
    change (EmptyString +:+ g x) with (g x). now rewrite app_assoc_string.
Qed.

Lemma c_str_app (a x : string) : exists y, c_str (a +:+ x) = c_str a +:+ y.
Proof.
  induction a as [|c a [y IH]].
  - exists (c_str x). reflexivity.
  - rewrite app_cons. cbn [c_str].
    destruct (Ascii.eqb c NUL).
    + exists EmptyString. reflexivity.
    + exists y. now rewrite IH.
Qed.

Section Budget.
Context `{Llama}.
Variables (model : llama_model) (ctx : llama_context) (cancel_req : nat -> bool).

(** A run of the loop with a larger budget continues the run with the
    smaller one. *)
Lemma decode_loop_budget (small large : Z) (fuel1 : nat) :
  small <= large ->
  forall (fuel2 k : nat) (ls a b : Real.loop_state),
    Z.max 0 (large - Real.l_n_gen ls) < Z.of_nat fuel2 ->
    Real.decode_loop model ctx small cancel_req fuel1 k ls = Done a ->
    Real.decode_loop model ctx large cancel_req fuel2 k ls = Done b ->
    exists new : list llama_token,
      Real.l_sampled b = Real.l_sampled a ++ new /\
      Real.l_result b =
        foldl (fun r tok => r +:+ Real.fitting_piece model tok) (Real.l_result a) new /\
      Real.l_n_gen a <= Real.l_n_gen b.
Proof.
  intros Hle.
  induction fuel1 as [|fuel1 IH]; intros fuel2 k ls a b Hfuel Ha Hb.
  - simpl in Ha. injection Ha as <-.
    apply decode_loop_spec in Hb as (new & Hs & Hr & _ & Hn & _). eauto.
  - destruct fuel2 as [|fuel2]; [lia|].
    pose proof (decode_loop_spec model ctx large cancel_req _ _ _ _ Hb)
      as (newb & Hsb & Hrb & _ & Hnb & _).
    simpl in Ha, Hb.
    destruct (Z.ltb_spec (Real.l_n_gen ls) small) as [Hlt|Hge]; simpl in Ha.
    2: { injection Ha as <-. simpl. eauto. }
    destruct (Z.ltb_spec (Real.l_n_gen ls) large) as [_|]; [|lia]. simpl in Hb.
    destruct (negb (Real.l_cancel ls || cancel_req k)).
    2: { injection Ha as <-. simpl. eauto. }
    destruct (llama_token_is_eog model _).
    { injection Ha as <-. simpl. eauto. }
    destruct (llama_token_to_piece model _ 128 false) as [n buf].
    destruct (llama_batch_add _ _ _ _ _) as [batch|]; simpl in Ha, Hb;
      [|discriminate].
    destruct (llama_decode ctx batch (Real.l_world ls)) as [rc w'].
    destruct (negb (rc =? 0)).
    + injection Ha as <-. injection Hb as <-.
      exists []. simpl. rewrite app_nil_r. repeat split. lia.
    + eapply (IH fuel2); cycle 1; [exact Ha | exact Hb | simpl; lia].
Qed.

End Budget.

(** X11.  Raising the token budget only extends the output: when
    [nativeGenerate] returns past the loop for budgets [small <= large]
    on the same state, world and cancel requests, the tokens and the
    returned chars of the smaller run are a prefix of those of the larger
    run. *)
Theorem generate_budget_prefix `{Llama} (prompt : cstring) (small large : Z)
    (temperature : jfloat) (cancel_req : nat -> bool) (st : Real.State) (w : world)
    (s1 s2 : string) (n1 n2 : Z) (toks1 toks2 : list llama_token)
    (st1 st2 : Real.State) (w1 w2 : world) :
  small <= large ->
  Real.nativeGenerate prompt small temperature cancel_req st w
  = Done (s1, Real.Generated n1 toks1, st1, w1) ->
  Real.nativeGenerate prompt large temperature cancel_req st w
  = Done (s2, Real.Generated n2 toks2, st2, w2) ->
  (exists more, toks2 = toks1 ++ more) /\
  (exists rest, s2 = s1 +:+ rest) /\
  n1 <= n2.
Proof.
  intros Hle. unfold Real.nativeGenerate.
  destruct (negb (Real.g_model_loaded st)); [intros [=]|].
  simpl Real.g_ctx. simpl Real.g_model.
  destruct (Real.g_ctx st) as [ctx|]; [|intros [=]].
  destruct (Real.g_model st) as [model|]; [|intros [=]].
  destruct (llama_tokenize model _ _ _ _ _ _) as [n toks].
  destruct (n <? 0); [intros [=]|].
  destruct (Real.prefill_batch _) as [batch|]; cbn [obind]; [|intros [=]].
  destruct (llama_decode ctx batch _) as [rc w0].
  destruct (negb (rc =? 0)); [intros [=]|].
  destruct (Real.decode_loop model ctx small _ _ _ _) as [a|] eqn:Ha;
    cbn [obind]; [|intros [=]].
  destruct (Real.decode_loop model ctx large _ _ _ _) as [b|] eqn:Hb;
    cbn [obind]; [|intros _ [=]].
  intros [= <- <- <- <- <-] [= <- <- <- <- <-].
  assert (Hf : Z.max 0 (large - 0) < Z.of_nat (Real.loop_fuel large))
    by (unfold Real.loop_fuel; lia).
  pose proof (fun Hfuel =>
                decode_loop_budget model ctx cancel_req small large _ Hle _ _ _
                  a b Hfuel Ha Hb) as Hbud.
  destruct (Hbud Hf) as (new & Hs & Hr & Hn).
  split; [eauto|]. split; [|exact Hn].
  rewrite Hr, foldl_app_from. apply c_str_app.
Qed.

Lemma generate_budget_prefix_witness :
  (exists more, [104; 105; 300; 33] = [104; 105] ++ more) /\
  (exists rest, "hi!"%string = "hi" +:+ rest) /\ 2 <= 4.
Proof.
  apply (generate_budget_prefix (H := Fixture.lib) Fixture.yo 2 10 (JFloat 0)
           Real.no_request (fst Fixture.loaded) (snd Fixture.loaded)
           "hi" "hi!" 2 4 [104; 105] [104; 105; 300; 33]
           (fst Fixture.loaded) (fst Fixture.loaded) 3%nat 5%nat).
  - lia.
  - reflexivity.
  - reflexivity.
Defined.

Lemma nativeGenerate_generated_loaded `{Llama} (prompt : cstring) (maxTokens : Z)
    (temperature : jfloat) (cancel_req : nat -> bool) (st st' : Real.State)
    (w w' : world) (s : string) (n_gen : Z) (sampled : list llama_token) :
  Real.nativeGenerate prompt maxTokens temperature cancel_req st w
  = Done (s, Real.Generated n_gen sampled, st', w') ->
  Real.g_model_loaded st = true.
Proof.
  unfold Real.nativeGenerate.
  destruct (Real.g_model_loaded st); [reflexivity|intros [=]].
Qed.

(** X12.  When the first cancel request shows at the [k]-th check of the
    loop condition, [nativeGenerate] has sampled at most [k] tokens when
    it returns. *)
Theorem cancel_bounds_tokens `{Llama} (prompt : cstring) (maxTokens : Z)
    (temperature : jfloat) (cancel_req : nat -> bool) (k : nat)
    (st st' : Real.State) (w w' : world) (s : string) (n_gen : Z)
    (sampled : list llama_token) :
  Real.first_request cancel_req k ->
  Real.nativeGenerate prompt maxTokens temperature cancel_req st w
  = Done (s, Real.Generated n_gen sampled, st', w') ->
  (length sampled <= k)%nat /\ n_gen <= Z.of_nat k.
Proof.
  intros Hfirst Hgen.
  pose proof (nativeGenerate_generated_loaded prompt maxTokens temperature
                cancel_req st st' w w' s n_gen sampled Hgen) as Hl.
  destruct (Z.le_gt_cases (Z.of_nat k) maxTokens) as [Hk|Hk].
  - pose proof (nativeGenerate_first_request prompt maxTokens temperature
                  cancel_req k st w Hl Hfirst Hk) as Hobs.
    rewrite Hgen in Hobs. cbn [Real.observed obind] in Hobs.
    destruct (Real.nativeGenerate prompt (Z.of_nat k) temperature
                Real.no_request st w) as [[[[s2 e2] st2] w2]|] eqn:Hk2;
      cbn [Real.observed obind] in Hobs; [|discriminate].
    injection Hobs as <- <- <-.
    apply nativeGenerate_generated in Hk2 as (_ & _ & _ & _ & Hn & Hmax). lia.
  - apply nativeGenerate_generated in Hgen as (_ & _ & _ & _ & Hn & Hmax). lia.
Qed.

Lemma cancel_bounds_tokens_witness :
  (length ([104; 105]%Z : list llama_token) <= 2)%nat /\ 2 <= Z.of_nat 2.
Proof.
  apply (cancel_bounds_tokens (H := Fixture.lib) Fixture.yo 10 (JFloat 0)
           (Fixture.cancel_at 2) 2%nat (fst Fixture.loaded)
           (Real.set_cancel_generation true (fst Fixture.loaded))
           (snd Fixture.loaded) 3%nat "hi" 2 [104; 105]).
  - split; [reflexivity|]. intros [|[|i]] Hi; [reflexivity|reflexivity|lia].
  - vm_compute. reflexivity.
Defined.

(** X13.  For a prompt of 1 to 512 tokens the prefill builds, within
    bounds, one batch of exactly those tokens: each at its index as
    position, under the single sequence id 0, and only the last one
    asking for logits. *)
Theorem prefill_batch_in_range (tokens : list llama_token) :
  (1 <= length tokens <= 512)%nat ->
  exists batch,
    Real.prefill_batch tokens = Done batch /\
    n_tokens batch = Z.of_nat (length tokens) /\
    forall j t, tokens !! j = Some t ->
      batch_entry batch j
      = Some (t, Z.of_nat j, [0], bool_decide (j = (length tokens - 1)%nat)).
Proof.
  intros Hlen.
  destruct (prefill_batch_spec tokens Hlen) as (batch & Hb & _ & Hn & He).
  exists batch. auto.
Qed.

Lemma prefill_batch_in_range_witness :
  exists batch,
    Real.prefill_batch [1; 121; 111] = Done batch /\
    n_tokens batch = 3 /\
    batch_entry batch 0 = Some (1, 0, [0], false) /\
    batch_entry batch 2 = Some (111, 2, [0], true).
Proof.
  destruct (prefill_batch_in_range [1; 121; 111]) as (batch & Hb & Hn & He).
  - simpl. lia.
  - exists batch. split; [exact Hb|]. split; [exact Hn|].
    split; [exact (He 0%nat 1 eq_refl) | exact (He 2%nat 111 eq_refl)].
Defined.

(** The batch of a round of the loop: the one token, at the position
    given, under sequence id 0, asking for logits. *)
Lemma single_token_batch (cap : nat) (batch batch' : llama_batch)
    (tok : llama_token) (p : llama_pos) :
  (1 <= cap)%nat ->
  batch_shape cap batch ->
  llama_batch_add (llama_batch_clear batch) tok p [0] true = Done batch' ->
  batch_shape cap batch' /\ n_tokens batch' = 1 /\
  batch_entry batch' 0 = Some (tok, p, [0], true).
Proof.
  intros Hcap Hs Hadd.
  pose proof (batch_shape_clear cap batch Hs) as Hsc.
  destruct (batch_shape_add cap _ _ tok p true Hsc Hadd) as [Hs' Hn].
  split; [exact Hs'|]. split; [exact Hn|].
  pose proof (batch_entry_add cap (llama_batch_clear batch) tok p true 0 Hsc)
    as Hentry.
  rewrite (llama_batch_add_in_range cap) in Hadd by (assumption || (simpl; lia)).
  cbv zeta in Hadd, Hentry. injection Hadd as <-.
  apply Hentry. simpl. lia.
Qed.

(** Recording changes nothing: the loop over [recording L] goes as the
    loop over [L], the record apart. *)
Lemma decode_loop_recording (L : Llama) (model : @llama_model L)
    (ctx : @llama_context L) (maxTokens : Z) (cancel_req : nat -> bool)
    (fuel : nat) :
  forall (k : nat) (ls ls' : @Real.loop_state (recording L)),
    @Real.decode_loop (recording L) model ctx maxTokens cancel_req fuel k ls
    = Done ls' ->
    @Real.decode_loop L model ctx maxTokens cancel_req fuel k (unrecorded ls)
    = Done (unrecorded ls').
Proof.
  induction fuel as [|fuel IH]; intros k ls ls' Hrun.
  - simpl in Hrun. injection Hrun as <-. reflexivity.
  - cbn [Real.decode_loop] in Hrun |- *.
    change (Real.l_n_gen (unrecorded ls)) with (Real.l_n_gen ls).
    change (Real.l_cancel (unrecorded ls)) with (Real.l_cancel ls).
    change (Real.l_batch (unrecorded ls)) with (Real.l_batch ls).
    change (Real.l_result (unrecorded ls)) with (Real.l_result ls).
    change (Real.l_n_cur (unrecorded ls)) with (Real.l_n_cur ls).
    change (Real.l_sampled (unrecorded ls)) with (Real.l_sampled ls).
    change (Real.l_world (unrecorded ls)) with (fst (Real.l_world ls)).
    destruct ((Real.l_n_gen ls <? maxTokens)
              && negb (Real.l_cancel ls || cancel_req k)).
    2: { injection Hrun as <-. reflexivity. }
    change (@llama_sample_token_greedy (recording L) ctx
              (@llama_get_logits_ith (recording L) ctx
                 (n_tokens (Real.l_batch ls) - 1) (Real.l_world ls))
              (Real.l_world ls))
      with (@llama_sample_token_greedy L ctx
              (@llama_get_logits_ith L ctx (n_tokens (Real.l_batch ls) - 1)
                 (fst (Real.l_world ls)))
              (fst (Real.l_world ls))) in Hrun.
    set (tok := @llama_sample_token_greedy L ctx _ _) in Hrun |- *.
    change (@llama_token_is_eog (recording L) model tok)
      with (@llama_token_is_eog L model tok) in Hrun.
    destruct (@llama_token_is_eog L model tok).
    { injection Hrun as <-. reflexivity. }
    change (@llama_token_to_piece (recording L) model tok 128 false)
      with (@llama_token_to_piece L model tok 128 false) in Hrun.
    destruct (@llama_token_to_piece L model tok 128 false) as [n buf].
    destruct (llama_batch_add _ tok _ _ _) as [batch|];
      cbn [obind] in Hrun |- *; [|discriminate].
    change (@llama_decode (recording L) ctx batch (Real.l_world ls))
      with (let '(rc, w') := @llama_decode L ctx batch (fst (Real.l_world ls)) in
            (rc, (w', snd (Real.l_world ls) ++ [batch]))) in Hrun.
    destruct (@llama_decode L ctx batch (fst (Real.l_world ls))) as [rc w1].
    destruct (negb (rc =? 0)).
    + injection Hrun as <-. reflexivity.
    + apply IH in Hrun. exact Hrun.
Qed.

(** X14.  Every token the decode loop samples, other than an
    end-of-generation token, is submitted for decoding in a batch of its
    own, at the position right after the one before it: the [j]-th token
    of a run goes at position [n_cur + j], under sequence id 0, asking
    for logits, and nothing else is submitted; [n_cur] and [n_gen] advance
    together.  The batches are read off the run over [recording L], which
    is the run over [L] with the record kept beside it. *)
Theorem decode_loop_positions (L : Llama) (model : @llama_model L)
    (ctx : @llama_context L) (maxTokens : Z) (cancel_req : nat -> bool)
    (cap fuel : nat) :
  (1 <= cap)%nat ->
  forall (k : nat) (ls ls' : @Real.loop_state (recording L)),
    batch_shape cap (Real.l_batch ls) ->
    @Real.decode_loop (recording L) model ctx maxTokens cancel_req fuel k ls
    = Done ls' ->
    @Real.decode_loop L model ctx maxTokens cancel_req fuel k (unrecorded ls)
    = Done (unrecorded ls') /\
    exists (new : list llama_token) (batches : list llama_batch),
      Real.l_sampled ls' = Real.l_sampled ls ++ new /\
      submitted (Real.l_world ls') = submitted (Real.l_world ls) ++ batches /\
      length batches = length new /\
      (forall (j : nat) (tok : llama_token),
          new !! j = Some tok ->
          exists b,
            batches !! j = Some b /\ n_tokens b = 1 /\
            batch_entry b 0
            = Some (tok, Real.l_n_cur ls + Z.of_nat j, [0], true)) /\
      Real.l_n_cur ls' - Real.l_n_cur ls = Real.l_n_gen ls' - Real.l_n_gen ls.
Proof.
  intros Hcap k ls ls' Hshape Hrun.
  split; [now apply decode_loop_recording|].
  revert k ls ls' Hshape Hrun.
  assert (Hstay : forall ls ls' : @Real.loop_state (recording L),
             Real.l_sampled ls' = Real.l_sampled ls ->
             Real.l_world ls' = Real.l_world ls ->
             Real.l_n_cur ls' = Real.l_n_cur ls ->
             Real.l_n_gen ls' = Real.l_n_gen ls ->
             exists (new : list llama_token) (batches : list llama_batch),
               Real.l_sampled ls' = Real.l_sampled ls ++ new /\
               submitted (Real.l_world ls') = submitted (Real.l_world ls) ++ batches /\
               length batches = length new /\
               (forall (j : nat) (tok : llama_token),
                   new !! j = Some tok ->
                   exists b,
                     batches !! j = Some b /\ n_tokens b = 1 /\
                     batch_entry b 0
                     = Some (tok, Real.l_n_cur ls + Z.of_nat j, [0], true)) /\
               Real.l_n_cur ls' - Real.l_n_cur ls
               = Real.l_n_gen ls' - Real.l_n_gen ls).
  { intros ls ls' Hs Hw Hc Hg. exists [], [].
    rewrite Hs, Hw, Hc, Hg, !app_nil_r.
    repeat split; [|lia]. intros j tok Hj. discriminate. }
  induction fuel as [|fuel IH]; intros k ls ls' Hshape Hrun.
  - simpl in Hrun. injection Hrun as <-. now apply Hstay.
  - cbn [Real.decode_loop] in Hrun.
    destruct ((Real.l_n_gen ls <? maxTokens)
              && negb (Real.l_cancel ls || cancel_req k)).
    2: { injection Hrun as <-. now apply Hstay. }
    set (tok := @llama_sample_token_greedy (recording L) ctx _ _) in Hrun.
    destruct (@llama_token_is_eog (recording L) model tok).
    { injection Hrun as <-. now apply Hstay. }
    destruct (@llama_token_to_piece (recording L) model tok 128 false) as [n buf].
    destruct (llama_batch_add _ tok _ _ _) as [batch|] eqn:Hadd;
      cbn [obind] in Hrun; [|discriminate].
    destruct (single_token_batch cap _ _ tok _ Hcap Hshape Hadd)
      as (Hshape' & Hn & Hentry).
    change (@llama_decode (recording L) ctx batch (Real.l_world ls))
      with (let '(rc, w') := @llama_decode L ctx batch (fst (Real.l_world ls)) in
            (rc, (w', snd (Real.l_world ls) ++ [batch]))) in Hrun.
    destruct (@llama_decode L ctx batch (fst (Real.l_world ls))) as [rc w1].
    destruct (negb (rc =? 0)).
    + injection Hrun as <-. exists [tok], [batch].
      split; [reflexivity|]. split; [reflexivity|]. split; [reflexivity|].
      split; [|simpl; lia].
      intros [|j] tok' Hj; [|discriminate]. injection Hj as <-.
      exists batch. rewrite Z.add_0_r. auto.
    + apply IH in Hrun as (new & batches & Hs & Hw & Hlen & Hpos & Hcur);
        [|exact Hshape'].
      cbn in Hs, Hw, Hpos, Hcur.
      exists (tok :: new), (batch :: batches).
      split; [rewrite Hs, <- app_assoc; reflexivity|].
      split; [rewrite Hw, <- app_assoc; reflexivity|].
      split; [simpl; lia|]. split; [|lia].
      intros [|j] tok' Hj.
      * injection Hj as <-. exists batch. rewrite Z.add_0_r. auto.
      * destruct (Hpos j tok' Hj) as (b & Hb & Hbn & Hbe).
        exists b. split; [exact Hb|]. split; [exact Hbn|].
        rewrite Hbe. do 4 f_equal. lia.
Qed.

Lemma decode_loop_positions_witness :
  exists (new : list llama_token) (batches : list llama_batch),
    [104; 105; 300; 33] = [] ++ new /\
    [Recorded.single 104 3; Recorded.single 105 4; Recorded.single 300 5;
     Recorded.single 33 6] = [] ++ batches /\
    forall (j : nat) (tok : llama_token),
      new !! j = Some tok ->
      exists b,
        batches !! j = Some b /\ n_tokens b = 1 /\
        batch_entry b 0 = Some (tok, 3 + Z.of_nat j, [0], true).
Proof.
  destruct (decode_loop_positions Fixture.lib Fixture.model_file 2048 10
              Real.no_request 512 (Real.loop_fuel 10) ltac:(lia) 0%nat
              Recorded.entry Recorded.exit
              batch_shape_init ltac:(vm_compute; reflexivity))
    as (_ & new & batches & Hs & Hw & _ & Hpos & _).
  exists new, batches. auto.
Defined.

(** ** The stub build *)

Lemma stub_run_cancel_clear (cs : list Stub.call) :
  forall st : Stub.State,
    Stub.g_cancel_generation st = false ->
    Stub.g_cancel_generation (Stub.run cs st) = false.
Proof.
  unfold Stub.run.
  induction cs as [|c cs IH]; intros st Hst; simpl; [exact Hst|].
  apply IH. destruct c; simpl; try exact Hst.
  unfold Stub.nativeGenerate. destruct (negb (Stub.g_model_loaded st)); simpl;
    [exact Hst|reflexivity].
Qed.

(** X15.  In the stub build the cancel flag is never set: it is false
    after every call sequence from the fresh process, also after
    [nativeCancelGeneration]. *)
Theorem stub_cancel_never_set (cs : list Stub.call) :
  Stub.g_cancel_generation (Stub.run cs Stub.fresh) = false /\
  Stub.g_cancel_generation
    (Stub.nativeCancelGeneration (Stub.run cs Stub.fresh)) = false.
Proof.
  split; apply stub_run_cancel_clear; reflexivity.
Qed.

(** X16.  In the stub build a loaded model stays loaded through every
    call but [nativeUnloadModel]: [nativeFree] does not unload, and
    [nativeGenerate] keeps answering with the stub response. *)
Theorem stub_loaded_until_unload (cs : list Stub.call) (st : Stub.State)
    (prompt : cstring) (maxTokens : Z) (temperature : jfloat) :
  Stub.g_model_loaded st = true ->
  ~ In Stub.UnloadModel cs ->
  Stub.nativeIsModelLoaded (Stub.run cs st) = true /\
  fst (Stub.nativeGenerate prompt maxTokens temperature (Stub.run cs st))
  = ("[Stub Response] Model not compiled. Your prompt was: "
       +:+ substring 0 50 (chars prompt) +:+ "...")%string.
Proof.
  intros Hst Hcs.
  assert (Hl : Stub.g_model_loaded (Stub.run cs st) = true).
  { unfold Stub.run. revert st Hst.
    induction cs as [|c cs IH]; intros st Hst; simpl; [exact Hst|].
    apply IH.
    - intros Hin. apply Hcs. now right.
    - destruct c; simpl; try exact Hst; try reflexivity.
      + unfold Stub.nativeGenerate. rewrite Hst. reflexivity.
      + exfalso. apply Hcs. now left. }
  split; [exact Hl|].
  unfold Stub.nativeGenerate. rewrite Hl. simpl fst.
  rewrite c_str_nul_free; [reflexivity|].
  apply nul_free_stub_response, chars_nul_free.
Qed.

Lemma stub_loaded_until_unload_witness :
  Stub.nativeIsModelLoaded
    (Stub.run [Stub.Free; Stub.CancelGeneration; Stub.Init]
       (snd (Stub.nativeLoadModel "/x.gguf" 0 0 Stub.fresh))) = true.
Proof.
  apply (stub_loaded_until_unload [Stub.Free; Stub.CancelGeneration; Stub.Init]
           (snd (Stub.nativeLoadModel "/x.gguf" 0 0 Stub.fresh))
           Fixture.yo 10 (JFloat 0)).
  - reflexivity.
  - intros [Hin|[Hin|[Hin|[]]]]; discriminate.
Defined.

(** X17.  With a model loaded, the stub response carries the beginning of
    the native copy of the prompt, cut after 50 bytes: the returned bytes
    are the 53 bytes of the announcement, then the first
    min(50, length) bytes of the copy, then "...".  A copy of at most 50
    bytes is echoed whole. *)
Theorem stub_response_shape (prompt : cstring) (maxTokens : Z)
    (temperature : jfloat) (st : Stub.State) :
  Stub.g_model_loaded st = true ->
  let returned := fst (Stub.nativeGenerate prompt maxTokens temperature st) in
  (exists kept rest : string,
      chars prompt = kept +:+ rest /\
      String.length kept = Nat.min 50 (String.length (chars prompt)) /\
      returned = ("[Stub Response] Model not compiled. Your prompt was: "
                    +:+ kept +:+ "...")%string) /\
  String.length returned = (56 + Nat.min 50 (String.length (chars prompt)))%nat /\
  ((String.length (chars prompt) <= 50)%nat ->
   returned = ("[Stub Response] Model not compiled. Your prompt was: "
                 +:+ chars prompt +:+ "...")%string).
Proof.
  intros Hl returned.
  assert (Hr : returned = Stub.stub_response (chars prompt)).
  { subst returned. unfold Stub.nativeGenerate. rewrite Hl. cbn [negb fst].
    apply c_str_nul_free, nul_free_stub_response, chars_nul_free. }
  rewrite Hr. unfold Stub.stub_response, substr. split; [|split].
  - destruct (substring_0_prefix (chars prompt) 50) as [rest Hrest].
    exists (substring 0 50 (chars prompt)), rest.
    split; [exact Hrest|]. split; [apply length_substring_0|reflexivity].
  - rewrite !length_app_string, length_substring_0. simpl. lia.
  - intros Hshort. now rewrite substring_0_short.
Qed.

Lemma stub_response_shape_witness :
  exists kept rest : string,
    chars Fixture.long_prompt = kept +:+ rest /\
    String.length kept = 50%nat /\
    fst (Stub.nativeGenerate Fixture.long_prompt 16 (JFloat 0)
           (snd (Stub.nativeLoadModel "/x.gguf" 0 0 Stub.fresh)))
    = ("[Stub Response] Model not compiled. Your prompt was: "
         +:+ kept +:+ "...")%string.
Proof.
  apply (stub_response_shape Fixture.long_prompt 16 (JFloat 0)
           (snd (Stub.nativeLoadModel "/x.gguf" 0 0 Stub.fresh))).
  reflexivity.
Defined.

(** ** Model information *)

Lemma to_int32_range (z : Z) : - 2 ^ 31 <= to_int32 z < 2 ^ 31.
Proof.
  unfold to_int32.
  pose proof (Z.mod_pos_bound (z + 2 ^ 31) (2 ^ 32) ltac:(lia)). lia.
Qed.

Lemma to_int32_small (z : Z) : - 2 ^ 31 <= z < 2 ^ 31 -> to_int32 z = z.
Proof.
  intros Hz. unfold to_int32. rewrite Z.mod_small by lia. lia.
Qed.

Lemma digit_cases (d : Z) :
  0 <= d < 10 ->
  d = 0 \/ d = 1 \/ d = 2 \/ d = 3 \/ d = 4 \/ d = 5 \/ d = 6 \/ d = 7 \/
  d = 8 \/ d = 9.
Proof. lia. Qed.

Lemma digit_char_plain (d : Z) :
  0 <= d < 10 ->
  Ascii.eqb (digit_char d) NUL = false /\
  Ascii.eqb (digit_char d) "-"%char = false /\
  Z.of_nat (nat_of_ascii (digit_char d)) - 48 = d.
Proof.
  intros Hd. apply digit_cases in Hd.
  repeat (destruct Hd as [->|Hd]); try subst d; repeat split; reflexivity.
Qed.

Lemma uint_digits_app (fuel : nat) :
  forall (n : Z) (acc : string),
    uint_digits fuel n acc = uint_digits fuel n EmptyString +:+ acc.
Proof.
  induction fuel as [|fuel IH]; intros n acc; [reflexivity|].
  cbn [uint_digits]. destruct (n <? 10); [reflexivity|].
  rewrite IH. rewrite (IH _ (String _ EmptyString)).
  rewrite app_assoc_string. reflexivity.
Qed.

Lemma uint_digits_length (fuel : nat) :
  forall n : Z, (String.length (uint_digits fuel n EmptyString) <= fuel)%nat.
Proof.
  induction fuel as [|fuel IH]; intros n; [reflexivity|].
  cbn [uint_digits]. destruct (n <? 10); [simpl; lia|].
  rewrite uint_digits_app, length_app_string. specialize (IH (n / 10)).
  simpl. lia.
Qed.

Lemma uint_digits_nul_free (fuel : nat) :
  forall n : Z, nul_free (uint_digits fuel n EmptyString) = true.
Proof.
  induction fuel as [|fuel IH]; intros n; [reflexivity|].
  cbn [uint_digits].
  destruct (digit_char_plain (n mod 10)) as (Hnul & _ & _);
    [apply Z.mod_pos_bound; lia|].
  destruct (n <? 10).
  - cbn [nul_free]. now rewrite Hnul.
  - rewrite uint_digits_app, nul_free_app, IH. cbn [nul_free]. now rewrite Hnul.
Qed.

Lemma uint_digits_head (fuel : nat) :
  forall n : Z,
    exists d s, 0 <= d < 10 /\
      uint_digits (S fuel) n EmptyString = String (digit_char d) s.
Proof.
  induction fuel as [|fuel IH]; intros n.
  - exists (n mod 10), EmptyString.
    split; [apply Z.mod_pos_bound; lia|].
    cbn [uint_digits]. destruct (n <? 10); reflexivity.
  - change (uint_digits (S (S fuel)) n EmptyString)
      with (if n <? 10 then String (digit_char (n mod 10)) EmptyString
            else uint_digits (S fuel) (n / 10)
                   (String (digit_char (n mod 10)) EmptyString)).
    destruct (n <? 10).
    + exists (n mod 10), EmptyString.
      split; [apply Z.mod_pos_bound; lia|reflexivity].
    + destruct (IH (n / 10)) as (d & s & Hd & Hs).
      rewrite uint_digits_app, Hs. rewrite app_cons. eauto.
Qed.

Lemma value_from_app (a b : string) :
  forall v : Z, value_from v (a +:+ b) = value_from (value_from v a) b.
Proof.
  induction a as [|c a IH]; intros v; [reflexivity|].
  rewrite app_cons. cbn [value_from]. apply IH.
Qed.

Lemma uint_digits_value (fuel : nat) :
  forall n : Z,
    0 <= n < 10 ^ Z.of_nat fuel ->
    value_from 0 (uint_digits fuel n EmptyString) = n.
Proof.
  induction fuel as [|fuel IH]; intros n Hn.
  - simpl in *. lia.
  - cbn [uint_digits].
    destruct (digit_char_plain (n mod 10)) as (_ & _ & Hval);
      [apply Z.mod_pos_bound; lia|].
    destruct (Z.ltb_spec n 10) as [Hsmall|Hbig].
    + cbn [value_from]. rewrite Hval. rewrite Z.mod_small by lia. lia.
    + rewrite uint_digits_app, value_from_app, IH.
      * cbn [value_from]. rewrite Hval.
        pose proof (Z.div_mod n 10 ltac:(lia)). lia.
      * rewrite Nat2Z.inj_succ, Z.pow_succ_r in Hn by lia.
        split; [apply Z.div_pos; lia|].
        apply Z.div_lt_upper_bound; lia.
Qed.

Lemma format_d_length (n : Z) : (String.length (format_d n) <= 11)%nat.
Proof.
  unfold format_d. destruct (n <? 0).
  - pose proof (uint_digits_length 10 (- n)).
    change (S (String.length (uint_digits 10 (- n) EmptyString)) <= 11)%nat. lia.
  - pose proof (uint_digits_length 10 n). lia.
Qed.

Lemma format_d_nul_free (n : Z) : nul_free (format_d n) = true.
Proof.
  unfold format_d. destruct (n <? 0); [cbn [nul_free]|]; now rewrite uint_digits_nul_free.
Qed.

(** [%d] prints a numeral that reads back as the [int]. *)
Lemma parse_format_d (n : Z) : - 2 ^ 31 <= n < 2 ^ 31 -> parse_d (format_d n) = n.
Proof.
  intros Hn. unfold format_d.
  destruct (Z.ltb_spec n 0) as [Hneg|Hpos].
  - cbn [parse_d]. rewrite Ascii.eqb_refl.
    rewrite uint_digits_value; [lia|]. change (Z.of_nat 10) with 10. lia.
  - destruct (uint_digits_head 9 n) as (d & s & Hd & Hs).
    pose proof (uint_digits_value 10 n) as Hval.
    rewrite Hs in *. cbn [parse_d].
    destruct (digit_char_plain d Hd) as (_ & -> & _).
    apply Hval. change (Z.of_nat 10) with 10. lia.
Qed.

Section Info.
Context `{LlamaInfo}.

(** With a model handle present the answer is the whole format: the 256
    chars of the buffer are never used up and no NUL cuts the text. *)
Lemma nativeGetModelInfo_present (st : Real.State) (model : llama_model) :
  Real.g_model st = Some model ->
  RealInfo.nativeGetModelInfo st
  = info_text
      (format_d (to_int32 (llama_n_vocab model)))
      (format_d (to_int32 (match Real.g_ctx st with
                           | Some ctx => llama_n_ctx ctx
                           | None => 0
                           end))).
Proof.
  intros Hm. unfold RealInfo.nativeGetModelInfo. rewrite Hm.
  set (a := format_d (to_int32 (llama_n_vocab model))).
  set (b := format_d (to_int32 _)).
  pose proof (format_d_length (to_int32 (llama_n_vocab model))) as Ha.
  pose proof (format_d_nul_free (to_int32 (llama_n_vocab model))) as Hna.
  fold a in Ha, Hna.
  assert (Hb : (String.length b <= 11)%nat) by apply format_d_length.
  assert (Hnb : nul_free b = true) by apply format_d_nul_free.
  unfold snprintf. rewrite substring_0_short.
  - apply c_str_nul_free. unfold info_text.
    rewrite !nul_free_app, Hna, Hnb. reflexivity.
  - unfold info_text. rewrite !length_app_string. simpl. lia.
Qed.

End Info.

(** X18.  [nativeGetModelInfo] of the real build answers "{}" exactly
    when no model handle is present, whatever [g_model_loaded] says. *)
Theorem info_empty_iff_no_model `{LlamaInfo} (st : Real.State) :
  RealInfo.nativeGetModelInfo st = "{}"%string <-> Real.g_model st = None.
Proof.
  split.
  - destruct (Real.g_model st) as [model|] eqn:Hm; [|reflexivity].
    rewrite (nativeGetModelInfo_present st model Hm).
    unfold info_text. rewrite app_cons. cbn [json_key]. rewrite !app_cons.
    intros [=].
  - intros Hm. unfold RealInfo.nativeGetModelInfo. now rewrite Hm.
Qed.

Lemma digit_char_digit (d : Z) :
  0 <= d < 10 ->
  is_digit (digit_char d) = true /\
  (1 <= d -> Ascii.eqb (digit_char d) "0"%char = false).
Proof.
  intros Hd. apply digit_cases in Hd.
  repeat (destruct Hd as [->|Hd]); try subst d;
    (split; [reflexivity | intros H1; try reflexivity; lia]).
Qed.

Lemma all_digits_app (s t : string) :
  all_digits (s +:+ t) = all_digits s && all_digits t.
Proof.
  induction s as [|c s IH]; [reflexivity|].
  rewrite app_cons. cbn [all_digits]. rewrite IH. now rewrite andb_assoc.
Qed.

Lemma uint_digits_all_digits (fuel : nat) :
  forall n : Z, all_digits (uint_digits fuel n EmptyString) = true.
Proof.
  induction fuel as [|fuel IH]; intros n; [reflexivity|].
  cbn [uint_digits].
  destruct (digit_char_digit (n mod 10)) as [Hdig _];
    [apply Z.mod_pos_bound; lia|].
  destruct (n <? 10).
  - cbn [all_digits]. now rewrite Hdig.
  - rewrite uint_digits_app, all_digits_app, IH. cbn [all_digits].
    now rewrite Hdig.
Qed.

Lemma positive_numeral_app (s t : string) :
  positive_numeral s = true -> all_digits t = true ->
  positive_numeral (s +:+ t) = true.
Proof.
  destruct s as [|c s]; [discriminate|].
  rewrite app_cons. unfold positive_numeral.
  intros [Hs Hc]%andb_true_iff Ht.
  rewrite <- app_cons, all_digits_app, Hs, Ht, Hc. reflexivity.
Qed.

Lemma uint_digits_positive (fuel : nat) :
  forall n : Z,
    1 <= n < 10 ^ Z.of_nat fuel ->
    positive_numeral (uint_digits fuel n EmptyString) = true.
Proof.
  induction fuel as [|fuel IH]; intros n Hn.
  - simpl in Hn. lia.
  - cbn [uint_digits].
    destruct (digit_char_digit (n mod 10)) as [Hdig Hnz];
      [apply Z.mod_pos_bound; lia|].
    destruct (Z.ltb_spec n 10) as [Hsmall|Hbig].
    + unfold positive_numeral. cbn [all_digits]. rewrite Hdig, Hnz.
      * reflexivity.
      * rewrite Z.mod_small; lia.
    + rewrite uint_digits_app. apply positive_numeral_app.
      * apply IH. rewrite Nat2Z.inj_succ, Z.pow_succ_r in Hn by lia.
        split; [apply Z.div_le_lower_bound; lia|].
        apply Z.div_lt_upper_bound; lia.
      * cbn [all_digits]. now rewrite Hdig.
Qed.

(** [%d] prints a decimal numeral. *)
Lemma format_d_decimal_numeral (n : Z) :
  - 2 ^ 31 <= n < 2 ^ 31 -> decimal_numeral (format_d n) = true.
Proof.
  intros Hn. unfold format_d.
  destruct (Z.ltb_spec n 0) as [Hneg|Hpos].
  - cbn [decimal_numeral]. rewrite Ascii.eqb_refl.
    apply uint_digits_positive. change (Z.of_nat 10) with 10. lia.
  - destruct (Z.eq_dec n 0) as [->|Hnz]; [reflexivity|].
    pose proof (uint_digits_positive 10 n) as Hp.
    destruct (uint_digits_head 9 n) as (d & s & Hd & Hs).
    rewrite Hs in *. cbn [decimal_numeral].
    destruct (digit_char_plain d Hd) as (_ & -> & _).
    rewrite Hp; [reflexivity|]. change (Z.of_nat 10) with 10. lia.
Qed.

(** X19.  With a model and a context present, [nativeGetModelInfo]
    returns the whole JSON text, never cut by the 256-byte buffer:
    vocab_size and context_size are what [%d] prints for the [int] values
    of [llama_n_vocab] and [llama_n_ctx], each a decimal numeral (0, or an
    optional minus sign and digits 0 to 9 with no leading zero) of at
    most 11 bytes that reads back as that value, then loaded:true; the
    text has at most 67 bytes. *)
Theorem info_fields_read_back `{LlamaInfo} (st : Real.State)
    (model : llama_model) (ctx : llama_context) :
  Real.g_model st = Some model ->
  Real.g_ctx st = Some ctx ->
  let vocab_size := format_d (to_int32 (llama_n_vocab model)) in
  let context_size := format_d (to_int32 (llama_n_ctx ctx)) in
  RealInfo.nativeGetModelInfo st = info_text vocab_size context_size /\
  decimal_numeral vocab_size = true /\
  decimal_numeral context_size = true /\
  parse_d vocab_size = to_int32 (llama_n_vocab model) /\
  parse_d context_size = to_int32 (llama_n_ctx ctx) /\
  (String.length vocab_size <= 11)%nat /\
  (String.length context_size <= 11)%nat /\
  (String.length (RealInfo.nativeGetModelInfo st) <= 67)%nat.
Proof.
  intros Hm Hc vocab_size context_size.
  rewrite (nativeGetModelInfo_present st model Hm), Hc.
  fold vocab_size context_size.
  pose proof (format_d_length (to_int32 (llama_n_vocab model))) as Ha.
  pose proof (format_d_length (to_int32 (llama_n_ctx ctx))) as Hb.
  fold vocab_size in Ha. fold context_size in Hb.
  split; [reflexivity|].
  split; [apply format_d_decimal_numeral, to_int32_range|].
  split; [apply format_d_decimal_numeral, to_int32_range|].
  split; [apply parse_format_d, to_int32_range|].
  split; [apply parse_format_d, to_int32_range|].
  split; [exact Ha|]. split; [exact Hb|].
  unfold info_text. rewrite !length_app_string. simpl. lia.
Qed.

Lemma info_fields_read_back_witness :
  RealInfo.nativeGetModelInfo (fst Fixture.loaded) = info_text "32000" "2048" /\
  decimal_numeral "32000" = true /\ decimal_numeral "2048" = true /\
  parse_d "32000" = 32000 /\ parse_d "2048" = 2048.
Proof.
  destruct (info_fields_read_back (H := fixture_info) (fst Fixture.loaded)
              Fixture.model_file 2048 eq_refl eq_refl)
    as (Hi & Hv & Hc & Hpv & Hpc & _).
  exact (conj Hi (conj Hv (conj Hc (conj Hpv Hpc)))).
Defined.

(** [load_model_constructed] and [load_model_finish] are the two halves of
    a [nativeLoadModel] that constructs its model; in between the globals
    hold the model and no context. *)
Lemma load_model_constructed_spec `{Llama} (path : string) (nCtx nThreads : Z)
    (st st1 : Real.State) (w w1 : world) :
  load_model_constructed path st w = Some (st1, w1) ->
  exists model,
    Real.g_model st1 = Some model /\ Real.g_ctx st1 = None /\
    Real.g_model_loaded st1 = Real.g_model_loaded st /\
    Real.nativeLoadModel path nCtx nThreads st w
    = load_model_finish nCtx nThreads model st1 w1.
Proof.
  unfold load_model_constructed, Real.nativeLoadModel, load_model_finish.
  pose proof (release_ctx_state st w) as Hrc.
  destruct (Real.release_ctx st w) as [sa wa].
  pose proof (release_model_state sa wa) as Hrm.
  destruct (Real.release_model sa wa) as [sb wb].
  destruct (llama_load_model_from_file path Real.model_params wb) as [[model|] wc];
    [|discriminate].
  intros [= <- <-]. exists model.
  cbn in Hrc, Hrm. subst sa sb.
  repeat split; reflexivity.
Qed.

(** X20.  Between calls, that is in every state reached from the fresh
    process by whole calls, an answer of [nativeGetModelInfo] other than
    "{}" carries the [llama_n_ctx] of a live context.
    [nativeGetModelInfo] takes no lock: read while a [nativeLoadModel] is
    between the construction of its model (line 97) and of its context
    (line 111), the globals hold the model and no context, and the answer
    is the fallback, context_size 0 with loaded:true. *)
Theorem info_reports_live_context `{LlamaInfo} (cs : list RealCalls.call)
    (w w' : world) (st : Real.State) :
  RealCalls.run cs Real.fresh w = Done (st, w') ->
  (RealInfo.nativeGetModelInfo st <> "{}"%string ->
   exists model ctx,
     Real.g_model st = Some model /\ Real.g_ctx st = Some ctx /\
     Real.nativeIsModelLoaded st = true /\
     RealInfo.nativeGetModelInfo st
     = info_text (format_d (to_int32 (llama_n_vocab model)))
         (format_d (to_int32 (llama_n_ctx ctx)))) /\
  (forall (path : string) (nCtx nThreads : Z) (st1 : Real.State) (w1 : world),
     load_model_constructed path st w' = Some (st1, w1) ->
     exists model,
       Real.g_model st1 = Some model /\ Real.g_ctx st1 = None /\
       Real.nativeLoadModel path nCtx nThreads st w'
       = load_model_finish nCtx nThreads model st1 w1 /\
       RealInfo.nativeGetModelInfo st1
       = info_text (format_d (to_int32 (llama_n_vocab model))) "0").
Proof.
  intros Hrun. split.
  - intros Hinfo.
    destruct (run_handles_consistent cs Real.fresh st w w' Hrun
                fresh_handles_consistent) as [[Hmc _] Hl].
    destruct (Real.g_model st) as [model|] eqn:Hm.
    + destruct (Hmc ltac:(eauto)) as [ctx Hc].
      exists model, ctx. split; [reflexivity|]. split; [exact Hc|].
      split; [apply Hl; eauto|].
      rewrite (nativeGetModelInfo_present st model Hm), Hc. reflexivity.
    + exfalso. apply Hinfo. unfold RealInfo.nativeGetModelInfo. now rewrite Hm.
  - intros path nCtx nThreads st1 w1 Hmid.
    destruct (load_model_constructed_spec path nCtx nThreads st st1 w' w1 Hmid)
      as (model & Hm & Hc & _ & Hload).
    exists model. split; [exact Hm|]. split; [exact Hc|]. split; [exact Hload|].
    rewrite (nativeGetModelInfo_present st1 model Hm), Hc. reflexivity.
Qed.

Lemma info_reports_live_context_witness :
  RealInfo.nativeGetModelInfo (fst Fixture.loaded) = info_text "32000" "2048" /\
  exists st1 w1,
    load_model_constructed Fixture.model_file (fst Fixture.loaded)
      (snd Fixture.loaded) = Some (st1, w1) /\
    RealInfo.nativeGetModelInfo st1 = info_text "32000" "0".
Proof.
  destruct (info_reports_live_context (H := fixture_info)
              [RealCalls.Init; RealCalls.LoadModel Fixture.model_file 0 0] O
              (snd Fixture.loaded) (fst Fixture.loaded) eq_refl)
    as [Hquiet Hmid].
  split.
  - destruct Hquiet as (model & ctx & Hm & Hc & _ & Hinfo);
      [vm_compute; discriminate|].
    injection Hm as <-. injection Hc as <-. exact Hinfo.
  - eexists _, _. split; [reflexivity|].
    destruct (Hmid Fixture.model_file 0 0 _ _ eq_refl)
      as (model & Hm & _ & _ & Hinfo).
    injection Hm as <-. exact Hinfo.
Defined.

(** ** The prefill decode *)

(** X21.  With a model loaded and a prompt of 1 to 512 tokens,
    [nativeGenerate] clears the KV cache and submits the prefill batch
    once; when that decode fails it returns "[Error: Decoding failed]"
    with the cancel flag reset, and when it succeeds the call returns
    past the loop: a decode failure inside the loop never turns into the
    sentinel. *)
Theorem prefill_decode_decides `{Llama} (prompt : cstring) (maxTokens : Z)
    (temperature : jfloat) (cancel_req : nat -> bool) (st : Real.State)
    (w : world) (model : llama_model) (ctx : llama_context) (n : Z)
    (tokens : list llama_token) :
  Real.g_model_loaded st = true ->
  Real.g_model st = Some model ->
  Real.g_ctx st = Some ctx ->
  llama_tokenize model (chars prompt) (strlen prompt)
    (replicate (Z.to_nat (strlen prompt + 1)) 0) (strlen prompt + 1) true false
  = (n, tokens) ->
  1 <= n <= 512 ->
  exists batch,
    Real.prefill_batch (Real.resize tokens n) = Done batch /\
    let decoded := llama_decode ctx batch (llama_kv_cache_clear ctx w) in
    if fst decoded =? 0 then
      exists s n_gen sampled st' w',
        Real.nativeGenerate prompt maxTokens temperature cancel_req st w
        = Done (s, Real.Generated n_gen sampled, st', w')
    else
      Real.nativeGenerate prompt maxTokens temperature cancel_req st w
      = Done ("[Error: Decoding failed]"%string, Real.DecodingFailed,
              Real.set_cancel_generation false st, snd decoded).
Proof.
  intros Hl Hm Hc Htok Hn.
  destruct (prefill_batch_spec (Real.resize tokens n)) as (batch & Hb & Hs & _).
  { rewrite length_resize. lia. }
  exists batch. split; [exact Hb|].
  unfold Real.nativeGenerate. rewrite Hl. cbn [negb].
  simpl Real.g_ctx. simpl Real.g_model. rewrite Hc, Hm, Htok.
  destruct (Z.ltb_spec n 0); [lia|].
  rewrite Hb. cbn [obind].
  destruct (llama_decode ctx batch (llama_kv_cache_clear ctx w)) as [rc w1].
  cbn [fst snd]. destruct (rc =? 0); cbn [negb]; [|reflexivity].
  edestruct (decode_loop_total model ctx maxTokens cancel_req 512
               (Real.loop_fuel maxTokens)) as [ls Hloop]; [lia| |].
  2: { rewrite Hloop. cbn [obind]. eauto 8. }
  exact Hs.
Qed.

Lemma prefill_decode_decides_witness :
  exists batch,
    Real.prefill_batch (Real.resize [1; 121; 111] 3) = Done batch /\
    exists s n_gen sampled st' w',
      Real.nativeGenerate (H := Fixture.lib) Fixture.yo 10 (JFloat 0)
        Real.no_request (fst Fixture.loaded) (snd Fixture.loaded)
      = Done (s, Real.Generated n_gen sampled, st', w').
Proof.
  destruct (prefill_decode_decides (H := Fixture.lib) Fixture.yo 10 (JFloat 0)
              Real.no_request (fst Fixture.loaded) (snd Fixture.loaded)
              Fixture.model_file 2048 3 [1; 121; 111]
              eq_refl eq_refl eq_refl eq_refl ltac:(lia))
    as (batch & Hb & Hdec).
  exists batch. split; [exact Hb|].
  assert (Hb' : Real.prefill_batch (Real.resize [1; 121; 111] 3)
                = Real.prefill_batch [1; 121; 111]) by reflexivity.
  rewrite Hb' in Hb.
  assert (Hentry : Done (Real.l_batch Fixture.loop_entry) = Done batch)
    by (rewrite <- Hb; vm_compute; reflexivity).
  injection Hentry as <-.
  exact Hdec.
Defined.

(** X22.  Of the calls of the real build only [nativeGenerate] and
    [nativeCancelGeneration] write the cancel flag: init, load, unload,
    the loaded query and free leave it as it is. *)
Theorem lifecycle_keeps_cancel_flag `{Llama} (c : RealCalls.call)
    (st st' : Real.State) (w w' : world) :
  match c with
  | RealCalls.Generate _ _ _ _ | RealCalls.CancelGeneration => False
  | _ => True
  end ->
  RealCalls.step c st w = Done (st', w') ->
  Real.g_cancel_generation st' = Real.g_cancel_generation st.
Proof.
  destruct c as [|path nCtx nThreads| | | | |]; intros Hc; try contradiction;
    cbn [RealCalls.step].
  - intros [= <- <-]. reflexivity.
  - unfold Real.nativeLoadModel.
    destruct st as [[m|] [c|] l g]; cbn;
      (destruct (llama_load_model_from_file path Real.model_params _) as [[m'|] w1];
       cbn;
       [destruct (llama_new_context_with_model m' _ w1) as [[c'|] w2]; cbn|]);
      intros [= <- <-]; reflexivity.
  - pose proof (nativeUnloadModel_state st w) as Hun.
    intros [= Hstep]. rewrite Hstep in Hun. simpl in Hun. now subst st'.
  - intros [= <- <-]. reflexivity.
  - pose proof (nativeUnloadModel_state st w) as Hun.
    unfold Real.nativeFree. destruct (Real.nativeUnloadModel st w) as [st1 w1].
    intros [= <- <-]. simpl in Hun. now subst st1.
Qed.

Lemma lifecycle_keeps_cancel_flag_witness :
  Real.g_cancel_generation
    (snd (fst (Real.nativeLoadModel (H := Fixture.lib) Fixture.model_file 0 0
                 (Real.nativeCancelGeneration Real.fresh) O))) = true.
Proof.
  apply (lifecycle_keeps_cancel_flag (H := Fixture.lib)
           (RealCalls.LoadModel Fixture.model_file 0 0)
           (Real.nativeCancelGeneration Real.fresh) _ O O I).
  reflexivity.
Defined.
